(** * dc-cron: the scheduled job dispatcher of [src/worker.ts]

    A shallow embedding of the Cloudflare Worker that maps a cron
    expression to a set of jobs, calls each job endpoint over HTTP,
    alerts Slack about the unexpected failures and marks the tick as
    failed when any job failed.

    Conventions of the embedding.
    - A JavaScript string is a [string]; one [ascii] stands for the UTF-16
      code unit of the same number.  The only literal of the source outside
      that range is the bullet of the Slack text ([bullet] below).
    - A JavaScript number that the program handles (an HTTP status, a
      duration in milliseconds, a count) is an integer, modelled by [Z].
    - A field that may be absent ([status?: number], [env.ENABLED] read
      through [??]) is an [option].
    - A [Record<string, JobKey[]>] table is an object literal: a finite map
      holds the entries written in it, and the member access [T[ev.cron]]
      ([Object_get]) finds those entries first and then the members that
      every object inherits from [Object.prototype].
    - Promises run one after the other, in the order of their array; the
      interleaving of concurrent network calls is not modelled.
    - [ctx.waitUntil(p)] runs [p] as part of the tick: the tick ends with a
      thrown value when [p] rejects. *)

From Stdlib Require Import ZArith String Ascii DecimalString.
From stdpp Require Import gmap strings list.

Local Open Scope string_scope.

(** ** Strings *)

Definition dquote : string := String (ascii_of_nat 34) EmptyString.
Definition newline : string := String (ascii_of_nat 10) EmptyString.

(** [String(n)] and template interpolation of an integer. *)
Definition Number_toString (n : Z) : string :=
  NilZero.string_of_int (Z.to_int n).

Fixpoint all_chars (p : ascii → bool) (s : string) : bool :=
  match s with
  | EmptyString => true
  | String c r => p c && all_chars p r
  end.

(** Removes the longest suffix made of characters satisfying [p]: scanning
    from the left, the first position whose whole remainder satisfies [p]
    is where the string is cut. *)
Fixpoint drop_trailing (p : ascii → bool) (s : string) : string :=
  match s with
  | EmptyString => EmptyString
  | String c r => if p c && all_chars p r then EmptyString
                  else String c (drop_trailing p r)
  end.

Fixpoint drop_leading (p : ascii → bool) (s : string) : string :=
  match s with
  | EmptyString => EmptyString
  | String c r => if p c then drop_leading p r else s
  end.

Definition is_slash (c : ascii) : bool := Ascii.eqb c "/"%char.

(** [s.replace(/\/+$/, '')]: the regular expression has no [g] flag, so the
    leftmost match is replaced; a match at position [i] needs one or more
    slashes running up to the end of the input. *)
Definition replace_trailing_slashes (s : string) : string :=
  drop_trailing is_slash s.

(** White space of [String.prototype.trim] among the code units below 256:
    TAB, LF, VT, FF, CR, SP and NBSP. *)
Definition is_whitespace (c : ascii) : bool :=
  let n := nat_of_ascii c in
  ((9 <=? n)%nat && (n <=? 13)%nat) || (n =? 32)%nat || (n =? 160)%nat.

Definition trim (s : string) : string :=
  drop_trailing is_whitespace (drop_leading is_whitespace s).

(** [s.startsWith(p)] *)
Definition startsWith (s p : string) : bool := String.prefix p s.

(** [s.slice(0, n)] *)
Definition slice0 (s : string) (n : nat) : string := substring 0 n s.

(** Truthiness of a possibly absent string: [undefined] and [''] are falsy. *)
Definition truthy (s : option string) : bool :=
  match s with
  | None => false
  | Some EmptyString => false
  | Some _ => true
  end.

(** ** Job registry and schedule map *)

Inductive Platform := worker | web.

Inductive JobKey :=
| createDailyChronicles
| processIncompleteChronicles
| syncChroniclesUpdates
| syncUserStakes
| provideLiquidity
| shieldClean
| recordDacPerformance
| healthz.

#[global] Instance JobKey_eq_dec : EqDecision JobKey.
Proof. solve_decision. Defined.

#[global] Instance Platform_eq_dec : EqDecision Platform.
Proof. solve_decision. Defined.

(** The key as it is interpolated into log lines and Slack texts. *)
Definition JobKey_toString (j : JobKey) : string :=
  match j with
  | createDailyChronicles => "createDailyChronicles"
  | processIncompleteChronicles => "processIncompleteChronicles"
  | syncChroniclesUpdates => "syncChroniclesUpdates"
  | syncUserStakes => "syncUserStakes"
  | provideLiquidity => "provideLiquidity"
  | shieldClean => "shieldClean"
  | recordDacPerformance => "recordDacPerformance"
  | healthz => "healthz"
  end.

Record Env := {
  BASE_URL : string;
  WEB_URL : string;
  INTERNAL_API_KEY : string;
  ENABLED : option string;
  SLACK_WEBHOOK_URL : option string
}.

Record Endpoint := { ep_method : string; ep_path : string }.

Definition JOB_ENDPOINT (j : JobKey) : Endpoint :=
  match j with
  | createDailyChronicles =>
      {| ep_method := "POST"; ep_path := "/api/internal/create-daily-chronicles" |}
  | processIncompleteChronicles =>
      {| ep_method := "POST"; ep_path := "/api/internal/process-incomplete-chronicles" |}
  | syncChroniclesUpdates =>
      {| ep_method := "POST"; ep_path := "/api/internal/sync-chronicles-updates" |}
  | syncUserStakes =>
      {| ep_method := "POST"; ep_path := "/api/internal/sync-user-stakes" |}
  | provideLiquidity =>
      {| ep_method := "POST"; ep_path := "/api/internal/provide-liquidity" |}
  | shieldClean =>
      {| ep_method := "POST"; ep_path := "/api/internal/shield-clean" |}
  | recordDacPerformance =>
      {| ep_method := "POST"; ep_path := "/api/internal/record-dac-performance" |}
  | healthz =>
      {| ep_method := "GET"; ep_path := "/api/healthz" |}
  end.

(** The entries written in the two tables (their own properties). *)
Definition WORKER_CRON_TO_JOBS : gmap string (list JobKey) :=
  <["0,30 12-23 * * *" := [createDailyChronicles] ]>
  (<["15 13-15 * * *" := [processIncompleteChronicles] ]>
  (<["*/1 * * * *" := [syncChroniclesUpdates; syncUserStakes; healthz] ]>
  (<["0 * * * *" := [provideLiquidity] ]>
  (<["*/15 * * * *" := [shieldClean; recordDacPerformance] ]> ∅)))).

Definition WEB_CRON_TO_JOBS : gmap string (list JobKey) :=
  <["0,30 12-23 * * *" := [] ]>
  (<["15 13-15 * * *" := [] ]>
  (<["*/1 * * * *" := [healthz] ]>
  (<["0 * * * *" := [] ]>
  (<["*/15 * * * *" := [] ]> ∅)))).

(** What a member access on a table can give: nothing, a list of jobs, a
    method inherited from [Object.prototype] (with its [length]), or
    [Object.prototype] itself. *)
Inductive Member :=
| m_undefined
| m_array (jobs : list JobKey)
| m_function (arity : nat)
| m_object.

(** The members of [Object.prototype]: the constructor [Object], the
    methods with the number of their formal parameters, and the accessor
    [__proto__], which gives [Object.prototype]. *)
Definition Object_prototype : gmap string Member :=
  list_to_map
    [("constructor", m_function 1);
     ("hasOwnProperty", m_function 1);
     ("isPrototypeOf", m_function 1);
     ("propertyIsEnumerable", m_function 1);
     ("toLocaleString", m_function 0);
     ("toString", m_function 0);
     ("valueOf", m_function 0);
     ("__defineGetter__", m_function 2);
     ("__defineSetter__", m_function 2);
     ("__lookupGetter__", m_function 1);
     ("__lookupSetter__", m_function 1);
     ("__proto__", m_object)].

(** [table[key]]: an entry of the table, else an inherited member, else
    [undefined]. *)
Definition Object_get (table : gmap string (list JobKey)) (key : string) : Member :=
  match table !! key with
  | Some jobs => m_array jobs
  | None => default m_undefined (Object_prototype !! key)
  end.

(** Truthiness of a member: only [undefined] is falsy. *)
Definition Member_truthy (m : Member) : bool :=
  match m with
  | m_undefined => false
  | _ => true
  end.

(** [m.length === 0]: an empty array or a method without parameters;
    [Object.prototype] has no [length]. *)
Definition Member_length_is_zero (m : Member) : bool :=
  match m with
  | m_array [] => true
  | m_function O => true
  | _ => false
  end.

(** ** Requests, responses and job results *)

Record SlackPayload := { text : string }.

(** What [fetch] is called with.  A body is only ever sent to the Slack
    webhook; it is kept as the payload that [JSON.stringify] serialises. *)
Record Request := {
  req_url : string;
  req_method : string;
  req_headers : list (string * string);
  req_body : option SlackPayload
}.

(** A thrown value, seen through the two ways the program reads it:
    [e?.message] and [String(e)]. *)
Record Thrown := { message : option string; toString : string }.

(** [new Error(msg)] *)
Definition Error (msg : string) : Thrown :=
  {| message := Some msg; toString := "Error: " ++ msg |}.

(** The [TypeError] that the engine throws with a message. *)
Definition TypeError (msg : string) : Thrown :=
  {| message := Some msg; toString := "TypeError: " ++ msg |}.

(** A response: its status, and how reading its text ends ([res.text()]
    resolves with the text or rejects). *)
Record Response := { res_status : Z; res_text : Thrown + string }.

(** [res.ok]: the status is in the range 200-299. *)
Definition res_ok (res : Response) : bool :=
  (200 <=? res_status res)%Z && (res_status res <=? 299)%Z.

(** [JobResultOk | JobResultErr] as one object with optional fields. *)
Record JobResult := {
  job : JobKey;
  ok : bool;
  status : option Z;
  ms : Z;
  url : string;
  baseUrl : string;
  error : option string;
  body : option string
}.

Record ResolvedUrl := { ru_url : string; ru_method : string; ru_baseUrl : string }.

Definition fullUrl (platform : Platform) (env : Env) (ep : Endpoint) : ResolvedUrl :=
  let baseUrl := match platform with worker => BASE_URL env | web => WEB_URL env end in
  {| ru_url := replace_trailing_slashes baseUrl ++ ep_path ep;
     ru_method := ep_method ep;
     ru_baseUrl := baseUrl |}.

(** ** Slack helpers *)

Definition shouldAlert (jobResult : option JobResult) : bool :=
  match jobResult with
  | None => true
  | Some r =>
      if bool_decide (status r = Some 503%Z) || bool_decide (status r = Some 409%Z)
      then false
      else if bool_decide (status r = Some 524%Z) && bool_decide (job r = provideLiquidity)
      then false
      else true
  end.

(** The bullet of the Slack text, U+2022, spelled by its UTF-8 bytes. *)
Definition bullet : string := "•".

Record FailureOpts := {
  fo_cron : string;
  fo_job : JobKey;
  fo_url : string;
  fo_status : option Z;
  fo_ms : Z;
  fo_baseUrl : string;
  fo_timestampISO : string;
  fo_body : option string
}.

Definition slackTextForFailure (opts : FailureOpts) : string :=
  let statusStr :=
    match fo_status opts with
    | Some st => Number_toString st
    | None => "network error"
    end in
  let bodySnippet :=
    match fo_body opts with
    | Some (String _ _ as b) =>
        newline ++ bullet ++ " *Body (trimmed)*:" ++ newline ++
        "```" ++ newline ++ b ++ newline ++ "```"
    | _ => ""
    end in
  ":rotating_light: *Cron job failed* (" ++ fo_cron opts ++ ")" ++ newline ++
  bullet ++ " *Job*: " ++ JobKey_toString (fo_job opts) ++ newline ++
  bullet ++ " *Status*: " ++ statusStr ++ newline ++
  bullet ++ " *Duration*: " ++ Number_toString (fo_ms opts) ++ "ms" ++ newline ++
  bullet ++ " *When*: " ++ fo_timestampISO opts ++ newline ++
  bullet ++ " *URL*: " ++ fo_url opts ++ newline ++
  bullet ++ " *BASE_URL*: " ++ fo_baseUrl opts ++
  bodySnippet.

(** ** Effects

    The program talks to the console and to the network, reads the clock
    and may throw.  A computation starts in a state of the world and ends
    with a value or a thrown value, the world it leaves and the events it
    performed, in order.  The world is abstract: the clock and the answers
    of the network are read from it, and each network call moves it on. *)

Inductive Event :=
| ev_log (line : string)      (* console.log *)
| ev_error (line : string)    (* console.error *)
| ev_fetch (req : Request).   (* fetch(url, init) *)

Inductive Reply :=
| Rejects (e : Thrown)
| Responds (res : Response).

Record Run (World A : Type) := {
  outcome : Thrown + A;
  world_after : World;
  events : list Event
}.
Arguments outcome {World A}.
Arguments world_after {World A}.
Arguments events {World A}.

Definition M (World A : Type) : Type := World → Run World A.

Section Monad.
Context {World : Type}.

Definition ret {A} (a : A) : M World A :=
  λ w, {| outcome := inr a; world_after := w; events := [] |}.

Definition throw {A} (e : Thrown) : M World A :=
  λ w, {| outcome := inl e; world_after := w; events := [] |}.

Definition bind {A B} (m : M World A) (k : A → M World B) : M World B :=
  λ w, let r := m w in
       match outcome r with
       | inr a =>
           let r' := k a (world_after r) in
           {| outcome := outcome r'; world_after := world_after r';
              events := events r ++ events r' |}
       | inl e =>
           {| outcome := inl e; world_after := world_after r;
              events := events r |}
       end.

(** [try { m } catch (e) { h e }] *)
Definition try_catch {A} (m : M World A) (h : Thrown → M World A) : M World A :=
  λ w, let r := m w in
       match outcome r with
       | inr a => r
       | inl e =>
           let r' := h e (world_after r) in
           {| outcome := outcome r'; world_after := world_after r';
              events := events r ++ events r' |}
       end.

Definition emit (ev : Event) : M World unit :=
  λ w, {| outcome := inr tt; world_after := w; events := [ev] |}.

Definition console_log (line : string) : M World unit := emit (ev_log line).
Definition console_error (line : string) : M World unit := emit (ev_error line).

(** Runs a computation to its end and hands back how it ended. *)
Definition attempt {A} (m : M World A) : M World (Thrown + A) :=
  λ w, let r := m w in
       {| outcome := inr (outcome r); world_after := world_after r;
          events := events r |}.
End Monad.

Notation "'let*' x ':=' m 'in' k" := (bind m (λ x, k))
  (at level 10, x name, m at level 100, k at level 200).

Section Promises.
Context {World : Type}.

(** Every promise of the list runs to its end, in the order of the
    array; the interleaving of concurrent calls is not modelled. *)
Fixpoint settle {A} (ps : list (M World A)) : M World (list (Thrown + A)) :=
  match ps with
  | [] => ret []
  | p :: ps' =>
      let* o := attempt p in
      let* os := settle ps' in
      ret (o :: os)
  end.

(** The values of all outcomes, or the first rejection. *)
Fixpoint collect {A} (os : list (Thrown + A)) : Thrown + list A :=
  match os with
  | [] => inr []
  | inl e :: _ => inl e
  | inr a :: os' =>
      match collect os' with
      | inl e => inl e
      | inr vs => inr (a :: vs)
      end
  end.

Definition Promise_all {A} (ps : list (M World A)) : M World (list A) :=
  let* os := settle ps in
  match collect os with
  | inl e => throw e
  | inr vs => ret vs
  end.

Definition Promise_allSettled {A} (ps : list (M World A))
  : M World (list (Thrown + A)) :=
  settle ps.
End Promises.

(** ** The worker *)

(** The part of an incoming request that the HTTP handler looks at:
    [new URL(req.url).pathname] and [req.method]. *)
Record IncomingRequest := { in_pathname : string; in_method : string }.

Record HandlerResponse := { hr_body : string; hr_status : Z }.

(** What the runtime gives the worker: [Date.now()], the text of
    [new Date().toISOString()], and the answer of the network to a request
    together with the world after it. *)
Class Host (World : Type) := {
  clock_ms : World → Z;
  clock_iso : World → string;
  network : Request → World → Reply * World
}.

Section Worker.
Context {World : Type} {host : Host World}.

Definition Date_now : M World Z :=
  λ w, {| outcome := inr (clock_ms w); world_after := w; events := [] |}.

Definition nowISO : M World string :=
  λ w, {| outcome := inr (clock_iso w); world_after := w; events := [] |}.

Definition fetch (req : Request) : M World Response :=
  λ w,
    let reply := network req w in
    {| outcome :=
         match fst reply with
         | Rejects e => inl e
         | Responds res => inr res
         end;
       world_after := snd reply;
       events := [ev_fetch req] |}.

(** [res.text()] *)
Definition Response_text (res : Response) : M World string :=
  match res_text res with
  | inl e => throw e
  | inr t => ret t
  end.

Definition postSlack (webhook : string) (payload : SlackPayload) : M World unit :=
  try_catch
    (let* res := fetch {| req_url := webhook;
                          req_method := "POST";
                          req_headers := [("Content-Type", "application/json")];
                          req_body := Some payload |} in
     if negb (res_ok res) then
       let* ts := nowISO in
       console_error ("[" ++ ts ++ "] Slack webhook failed status="
                      ++ Number_toString (res_status res))
     else ret tt)
    (λ e,
       let* ts := nowISO in
       console_error ("[" ++ ts ++ "] Slack webhook error: "
                      ++ default (toString e) (message e))).

(** The request that [runJob] sends for a job of a platform. *)
Definition job_request (platform : Platform) (j : JobKey) (env : Env) : Request :=
  let r := fullUrl platform env (JOB_ENDPOINT j) in
  {| req_url := ru_url r;
     req_method := ru_method r;
     req_headers :=
       if startsWith (ep_path (JOB_ENDPOINT j)) "/api/internal/"
       then [("Internal-Authorization", INTERNAL_API_KEY env)]
       else [];
     req_body := None |}.

Definition runJob (platform : Platform) (j : JobKey) (env : Env) : M World JobResult :=
  let r := fullUrl platform env (JOB_ENDPOINT j) in
  let u := ru_url r in
  let* started := Date_now in
  try_catch
    (let* res := fetch (job_request platform j env) in
     let* finished := Date_now in
     let dur := (finished - started)%Z in
     if negb (res_ok res) then
       let* b := try_catch (Response_text res) (λ _, ret "") in
       let trimmed := slice0 b 1500 in
       let* ts := nowISO in
       let* _ := console_error
         ("[" ++ ts ++ "] job=" ++ JobKey_toString j
          ++ " status=" ++ Number_toString (res_status res)
          ++ " durMs=" ++ Number_toString dur
          ++ " url=" ++ u ++ " body=" ++ trimmed) in
       ret {| job := j; ok := false; status := Some (res_status res);
              ms := dur; url := u; baseUrl := ru_baseUrl r;
              error := Some ("HTTP " ++ Number_toString (res_status res));
              body := Some trimmed |}
     else
       let* ts := nowISO in
       let* _ := console_log
         ("[" ++ ts ++ "] job=" ++ JobKey_toString j
          ++ " OK status=" ++ Number_toString (res_status res)
          ++ " durMs=" ++ Number_toString dur ++ " url=" ++ u) in
       ret {| job := j; ok := true; status := Some (res_status res);
              ms := dur; url := u; baseUrl := ru_baseUrl r;
              error := None; body := None |})
    (λ e,
       let* finished := Date_now in
       let dur := (finished - started)%Z in
       let msg := default (toString e) (message e) in
       let* ts := nowISO in
       let* _ := console_error
         ("[" ++ ts ++ "] job=" ++ JobKey_toString j
          ++ " fetch error durMs=" ++ Number_toString dur
          ++ " url=" ++ u ++ " err=" ++ msg) in
       ret {| job := j; ok := false; status := None;
              ms := dur; url := u; baseUrl := ru_baseUrl r;
              error := Some msg; body := None |}).

(** The HTTP handler of the default export. *)
Definition fetch_handler (req : IncomingRequest) : M World HandlerResponse :=
  if String.eqb (in_pathname req) "/" && String.eqb (in_method req) "GET"
  then ret {| hr_body := "ok"; hr_status := 200 |}
  else ret {| hr_body := "not found"; hr_status := 404 |}.

(** The Slack alert of one failed result. *)
Definition alert (cron webhook : string) (r : JobResult) : M World unit :=
  let* ts := nowISO in
  postSlack webhook
    {| text := slackTextForFailure
                 {| fo_cron := cron; fo_job := job r; fo_url := url r;
                    fo_status := status r; fo_ms := ms r;
                    fo_baseUrl := baseUrl r; fo_timestampISO := ts;
                    fo_body := body r |} |}.

Definition failed (r : JobResult) : bool := negb (ok r).

(** The message of the aggregate error. *)
Definition aggregate_message (cron : string) (results : list JobResult) : string :=
  let unexpectedFailed :=
    length (List.filter (λ r, shouldAlert (Some r)) (List.filter failed results)) in
  "Some jobs failed for cron=" ++ cron ++ ": "
  ++ Number_toString (Z.of_nat (length (List.filter failed results)))
  ++ "/" ++ Number_toString (Z.of_nat (length results))
  ++ " (unexpected failures=" ++ Number_toString (Z.of_nat unexpectedFailed) ++ ")".

(** Slack alerts for the failures that [shouldAlert] lets through, if a
    webhook is configured. *)
Definition alerting (cron : string) (env : Env) (results : list JobResult)
  : M World unit :=
  let webhook := trim <$> SLACK_WEBHOOK_URL env in
  match webhook with
  | Some (String _ _ as hook) =>
      let alerts :=
        map (alert cron hook)
            (List.filter (λ r, shouldAlert (Some r)) (List.filter failed results)) in
      if (0 <? length alerts)%nat
      then let* _ := Promise_allSettled alerts in ret tt
      else ret tt
  | _ => ret tt
  end.

(** The cron is marked as failed if any job failed. *)
Definition finalizing (cron : string) (results : list JobResult) : M World unit :=
  let anyFailed := existsb failed results in
  if anyFailed then throw (Error (aggregate_message cron results))
  else ret tt.

(** The body handed to [ctx.waitUntil]: run the jobs, alert, finalize. *)
Definition tick (cron : string) (env : Env) (workerJobs webJobs : list JobKey)
  : M World unit :=
  let allJobs :=
    (map (λ j, runJob worker j env) workerJobs
     ++ map (λ j, runJob web j env) webJobs)%list in
  let* results := Promise_all allJobs in
  let* _ := alerting cron env results in
  finalizing cron results.

(** The body handed to [ctx.waitUntil], from the members read in the two
    tables.  [workerJobs.map] is called first and throws when the member is
    not an array, before any job is started; [webJobs.map] is called after
    the worker jobs were started and throws likewise. *)
Definition tick_of_members (cron : string) (env : Env) (workerJobs webJobs : Member)
  : M World unit :=
  match workerJobs with
  | m_array workerList =>
      match webJobs with
      | m_array webList => tick cron env workerList webList
      | _ =>
          let* _ := settle (map (λ j, runJob worker j env) workerList) in
          throw (TypeError "webJobs.map is not a function")
      end
  | _ => throw (TypeError "workerJobs.map is not a function")
  end.

(** The cron entry point.  The promise given to [ctx.waitUntil] is run as
    part of the tick: the tick ends with a thrown value when that promise
    rejects. *)
Definition scheduled (cron : string) (env : Env) : M World unit :=
  if negb (String.eqb (default "false" (ENABLED env)) "true") then
    let* ts := nowISO in
    console_log ("[" ++ ts ++ "] [disabled] skipping cron=" ++ cron)
  else
    let workerJobs := Object_get WORKER_CRON_TO_JOBS cron in
    if negb (Member_truthy workerJobs) || Member_length_is_zero workerJobs then
      let* ts := nowISO in
      console_error ("[" ++ ts ++ "] no jobs mapped for cron="
                     ++ dquote ++ cron ++ dquote)
    else
      let webJobs :=
        if Member_truthy (Object_get WEB_CRON_TO_JOBS cron)
        then Object_get WEB_CRON_TO_JOBS cron
        else m_array [] in
      tick_of_members cron env workerJobs webJobs.
End Worker.

(** ** Vocabulary of the properties *)

(** The requests sent over the network, in order. *)
Definition fetched (t : list Event) : list Request :=
  omap (λ ev, match ev with ev_fetch req => Some req | _ => None end) t.

(** A job invocation is a request without a body ([runJob] never sends
    one); an alert is a request that posts a payload ([postSlack]). *)
Definition is_alert (req : Request) : bool :=
  match req_body req with Some _ => true | None => false end.

Definition job_calls (t : list Event) : list Request :=
  List.filter (λ req, negb (is_alert req)) (fetched t).

Definition alert_calls (t : list Event) : list Request :=
  List.filter is_alert (fetched t).

Fixpoint slashes (n : nat) : string :=
  match n with
  | O => EmptyString
  | S n' => String "/"%char (slashes n')
  end.

Fixpoint last_char (s : string) : option ascii :=
  match s with
  | EmptyString => None
  | String c EmptyString => Some c
  | String _ r => last_char r
  end.

(** The base URL of a backend. *)
Definition base_of (platform : Platform) (env : Env) : string :=
  match platform with worker => BASE_URL env | web => WEB_URL env end.

(** The same environment with another setting of [SLACK_WEBHOOK_URL]. *)
Definition with_webhook (env : Env) (hook : option string) : Env :=
  {| BASE_URL := BASE_URL env;
     WEB_URL := WEB_URL env;
     INTERNAL_API_KEY := INTERNAL_API_KEY env;
     ENABLED := ENABLED env;
     SLACK_WEBHOOK_URL := hook |}.

(** The same environment with another setting of [ENABLED]. *)
Definition with_enabled (env : Env) (flag : option string) : Env :=
  {| BASE_URL := BASE_URL env;
     WEB_URL := WEB_URL env;
     INTERNAL_API_KEY := INTERNAL_API_KEY env;
     ENABLED := flag;
     SLACK_WEBHOOK_URL := SLACK_WEBHOOK_URL env |}.

(** The request of a tagged job. *)
Definition request_of (env : Env) (pj : Platform * JobKey) : Request :=
  job_request pj.1 pj.2 env.

(** The due jobs of a cron expression, each tagged with its backend:
    the entry of the worker table followed by the entry of the web table. *)
Definition due_jobs (cron : string) : list (Platform * JobKey) :=
  (map (pair worker) (default [] (WORKER_CRON_TO_JOBS !! cron))
   ++ map (pair web) (default [] (WEB_CRON_TO_JOBS !! cron)))%list.

(** Whether the member that [scheduled] reads in the worker table passes the
    test for no jobs without being an array: an inherited method with
    parameters, or [Object.prototype]. *)
Definition dispatch_breaks (cron : string) : bool :=
  match Object_get WORKER_CRON_TO_JOBS cron with
  | m_function (S _) | m_object => true
  | _ => false
  end.

(** The feature gate as [scheduled] reads it. *)
Definition gate_open (env : Env) : bool :=
  String.eqb (default "false" (ENABLED env)) "true".

(** The text read from a failed response: [res.text().catch(() => '')]. *)
Definition text_or_empty (txt : Thrown + string) : string :=
  match txt with inr t => t | inl _ => "" end.

(** The result that [runJob] builds from the reply of the network, given
    the measured duration. *)
Definition result_of_reply (platform : Platform) (j : JobKey) (env : Env)
    (dur : Z) (reply : Reply) : JobResult :=
  let r := fullUrl platform env (JOB_ENDPOINT j) in
  match reply with
  | Rejects e =>
      {| job := j; ok := false; status := None; ms := dur;
         url := ru_url r; baseUrl := ru_baseUrl r;
         error := Some (default (toString e) (message e)); body := None |}
  | Responds res =>
      if res_ok res then
        {| job := j; ok := true; status := Some (res_status res); ms := dur;
           url := ru_url r; baseUrl := ru_baseUrl r;
           error := None; body := None |}
      else
        {| job := j; ok := false; status := Some (res_status res); ms := dur;
           url := ru_url r; baseUrl := ru_baseUrl r;
           error := Some ("HTTP " ++ Number_toString (res_status res));
           body := Some (slice0 (text_or_empty (res_text res)) 1500) |}
  end.

(** Whether an event is a network call. *)
Definition is_fetch (ev : Event) : bool :=
  match ev with ev_fetch _ => true | _ => false end.

(** A host for concrete runs: its world never changes, the clock stands
    still and the network gives every request the same reply. *)
Definition always (reply : Reply) : Host unit :=
  {| clock_ms := λ _, 0%Z;
     clock_iso := λ _, "2025-01-01T00:00:00.000Z";
     network := λ _ w, (reply, w) |}.
Definition http (st : Z) (txt : string) : Reply :=
  Responds {| res_status := st; res_text := inr txt |}.

(** An environment for concrete runs. *)
Definition sample_env (enabled hook : option string) : Env :=
  {| BASE_URL := "https://daichronicles.io/";
     WEB_URL := "https://web.daichronicles.io";
     INTERNAL_API_KEY := "s3cret";
     ENABLED := enabled;
     SLACK_WEBHOOK_URL := hook |}.

(** Concrete settings: the gate open with a Slack webhook, open without
    one, open with a webhook of white space only, and closed. *)
Definition env_alerting : Env :=
  sample_env (Some "true") (Some "https://hooks.slack.com/T0").
Definition env_silent : Env := sample_env (Some "true") None.
Definition env_blank_hook : Env := sample_env (Some "true") (Some "  ").
Definition env_disabled : Env :=
  sample_env (Some "false") (Some "https://hooks.slack.com/T0").

(** A response 500 with a text of 1600 characters. *)
Definition long_failure : Response :=
  {| res_status := 500; res_text := inr (slashes 1600) |}.

(** A network where one job succeeds and every other request gets a 500. *)
Definition one_job_up : Host unit :=
  {| clock_ms := λ _, 0%Z;
     clock_iso := λ _, "2025-01-01T00:00:00.000Z";
     network := λ req w,
       (if String.eqb (req_url req) "https://daichronicles.io/api/internal/shield-clean"
        then http 200 "ok" else http 500 "boom", w) |}.

(** ** The rest of the worker, and the shield-clean worker *)

(** The results of a list of tagged jobs run one after the other from a
    world, and the world they leave. *)
Fixpoint job_results {World : Type} {host : Host World} (env : Env)
    (jobs : list (Platform * JobKey)) (w : World) : list JobResult * World :=
  match jobs with
  | [] => ([], w)
  | pj :: rest =>
      let reply := network (job_request pj.1 pj.2 env) w in
      let r := result_of_reply pj.1 pj.2 env
                 (clock_ms (snd reply) - clock_ms w)%Z (fst reply) in
      let after := job_results env rest (snd reply) in
      (r :: fst after, snd after)
  end.

(** The request that [postSlack] sends for the alert of a result, given the
    time stamp read for its text. *)
Definition alert_request (cron hook : string) (r : JobResult) (ts : string) : Request :=
  {| req_url := hook;
     req_method := "POST";
     req_headers := [("Content-Type", "application/json")];
     req_body :=
       Some {| text := slackTextForFailure
                 {| fo_cron := cron; fo_job := job r; fo_url := url r;
                    fo_status := status r; fo_ms := ms r;
                    fo_baseUrl := baseUrl r; fo_timestampISO := ts;
                    fo_body := body r |} |} |}.

(** The same options with another body. *)
Definition with_body (opts : FailureOpts) (b : option string) : FailureOpts :=
  {| fo_cron := fo_cron opts; fo_job := fo_job opts; fo_url := fo_url opts;
     fo_status := fo_status opts; fo_ms := fo_ms opts;
     fo_baseUrl := fo_baseUrl opts; fo_timestampISO := fo_timestampISO opts;
     fo_body := b |}.

(** The same environment with other base URLs. *)
Definition with_base_urls (env : Env) (base webBase : string) : Env :=
  {| BASE_URL := base;
     WEB_URL := webBase;
     INTERNAL_API_KEY := INTERNAL_API_KEY env;
     ENABLED := ENABLED env;
     SLACK_WEBHOOK_URL := SLACK_WEBHOOK_URL env |}.

(** A network where every job gets a 500 and the Slack webhook cannot be
    reached. *)
Definition slack_down : Host unit :=
  {| clock_ms := λ _, 0%Z;
     clock_iso := λ _, "2025-01-01T00:00:00.000Z";
     network := λ req w,
       (if is_alert req
        then Rejects {| message := Some "connect ECONNREFUSED";
                        toString := "TypeError: connect ECONNREFUSED" |}
        else http 500 "down", w) |}.

(** The worker of [shield-clean/src/worker.ts]: one POST to the target on
    every tick. *)
Module ShieldClean.

Record Env := { TARGET_URL : string; INTERNAL_API_KEY : string }.

Section Worker.
Context {World : Type} {host : Host World}.

(** The HTTP handler: every request is answered ok. *)
Definition fetch_handler : M World HandlerResponse :=
  ret {| hr_body := "ok"; hr_status := 200 |}.

(** The cron entry point; as for the main worker, the promise given to
    [ctx.waitUntil] is run as part of the tick. *)
Definition scheduled (env : Env) : M World unit :=
  let* res := fetch {| req_url := TARGET_URL env;
                       req_method := "POST";
                       req_headers := [("Internal-Authorization", INTERNAL_API_KEY env)];
                       req_body := None |} in
  if negb (res_ok res) then
    let* b := try_catch (Response_text res) (λ _, ret "") in
    throw (Error ("POST " ++ TARGET_URL env ++ " -> "
                  ++ Number_toString (res_status res) ++ " " ++ b))
  else ret tt.

End Worker.
End ShieldClean.

(** ** String lemmas *)

Lemma append_nil_l (s : string) : "" ++ s = s.
Proof. reflexivity. Qed.

Lemma append_cons (c : ascii) (s t : string) : String c s ++ t = String c (s ++ t).
Proof. reflexivity. Qed.

Lemma append_assoc (s t u : string) : (s ++ t) ++ u = s ++ (t ++ u).
Proof.
  induction s as [|c s IH]; [done|].
  by rewrite !append_cons, IH.
Qed.

Lemma all_chars_slashes s :
  all_chars is_slash s = true → ∃ n, s = slashes n.
Proof.
  induction s as [|c r IH]; simpl.
  - intros _. by exists 0%nat.
  - intros [Hc Hr]%andb_prop. destruct (IH Hr) as [n ->].
    exists (S n). simpl. f_equal.
    unfold is_slash in Hc. by apply Ascii.eqb_eq in Hc.
Qed.

Lemma all_chars_of_slashes n : all_chars is_slash (slashes n) = true.
Proof. induction n; simpl; auto. Qed.

Lemma replace_trailing_slashes_split s :
  ∃ n, s = replace_trailing_slashes s ++ slashes n
       ∧ last_char (replace_trailing_slashes s) ≠ Some "/"%char.
Proof.
  unfold replace_trailing_slashes.
  induction s as [|c r (n & Hsplit & Hlast)]; simpl.
  - exists 0%nat. by split.
  - destruct (is_slash c && all_chars is_slash r) eqn:Hall.
    + apply andb_prop in Hall as [Hc Hr].
      destruct (all_chars_slashes r Hr) as [k ->].
      exists (S k). rewrite append_nil_l. split; [|done].
      unfold is_slash in Hc. by apply Ascii.eqb_eq in Hc as ->.
    + exists n. rewrite append_cons. split.
      * by rewrite <- Hsplit.
      * destruct (drop_trailing is_slash r) as [|c' r'] eqn:Hd.
        -- simpl. intros [= ->].
           rewrite append_nil_l in Hsplit. subst r.
           by rewrite all_chars_of_slashes in Hall.
        -- exact Hlast.
Qed.

Lemma slice0_length s n : String.length (slice0 s n) = Nat.min (String.length s) n.
Proof.
  unfold slice0. revert s. induction n as [|n IH]; intros [|c r]; simpl; auto.
Qed.

Lemma slice0_short s n : (String.length s ≤ n)%nat → slice0 s n = s.
Proof.
  unfold slice0. revert s. induction n as [|n IH]; intros [|c r]; simpl; auto.
  - lia.
  - intros H. f_equal. apply IH. lia.
Qed.

Lemma slice0_prefix s n : ∃ rest, s = slice0 s n ++ rest.
Proof.
  unfold slice0. revert s. induction n as [|n IH]; intros [|c r]; simpl.
  - by exists "".
  - by exists (String c r).
  - by exists "".
  - destruct (IH r) as [rest Hr]. exists rest.
    rewrite append_cons. by rewrite <- Hr.
Qed.


(** ** Traces *)

Lemma fetched_app (t1 t2 : list Event) : fetched (t1 ++ t2) = (fetched t1 ++ fetched t2)%list.
Proof. unfold fetched. apply omap_app. Qed.

Lemma job_calls_app (t1 t2 : list Event) :
  job_calls (t1 ++ t2) = (job_calls t1 ++ job_calls t2)%list.
Proof. unfold job_calls. by rewrite fetched_app, List.filter_app. Qed.

Lemma alert_calls_app (t1 t2 : list Event) :
  alert_calls (t1 ++ t2) = (alert_calls t1 ++ alert_calls t2)%list.
Proof. unfold alert_calls. by rewrite fetched_app, List.filter_app. Qed.

(** ** Runs of the monad *)

Section Runs.
Context {World : Type}.

(** Running a computation step by step: each rule runs the first part
    once and hands its value, world and events to the rest. *)
Lemma run_bind {A B} (m : M World A) (k : A → M World B) w a w1 e1 o w2 e2 :
  m w = {| outcome := inr a; world_after := w1; events := e1 |} →
  k a w1 = {| outcome := o; world_after := w2; events := e2 |} →
  bind m k w = {| outcome := o; world_after := w2; events := e1 ++ e2 |}.
Proof. intros Hm Hk. unfold bind. rewrite Hm. simpl. by rewrite Hk. Qed.

Lemma run_bind_throw {A B} (m : M World A) (k : A → M World B) w e w1 e1 :
  m w = {| outcome := inl e; world_after := w1; events := e1 |} →
  bind m k w = {| outcome := inl e; world_after := w1; events := e1 |}.
Proof. unfold bind. by intros ->. Qed.

Lemma run_try {A} (m : M World A) (h : Thrown → M World A) w a w1 e1 :
  m w = {| outcome := inr a; world_after := w1; events := e1 |} →
  try_catch m h w = {| outcome := inr a; world_after := w1; events := e1 |}.
Proof. unfold try_catch. by intros ->. Qed.

Lemma run_catch {A} (m : M World A) (h : Thrown → M World A) w e w1 e1 o w2 e2 :
  m w = {| outcome := inl e; world_after := w1; events := e1 |} →
  h e w1 = {| outcome := o; world_after := w2; events := e2 |} →
  try_catch m h w = {| outcome := o; world_after := w2; events := e1 ++ e2 |}.
Proof. intros Hm Hh. unfold try_catch. rewrite Hm. simpl. by rewrite Hh. Qed.

Lemma run_eta {A} (r : Run World A) :
  r = {| outcome := outcome r; world_after := world_after r; events := events r |}.
Proof. by destruct r. Qed.

Lemma settle_cons {A} (p : M World A) ps w o w1 e1 os w2 e2 :
  p w = {| outcome := o; world_after := w1; events := e1 |} →
  settle ps w1 = {| outcome := inr os; world_after := w2; events := e2 |} →
  settle (p :: ps) w
  = {| outcome := inr (o :: os); world_after := w2; events := e1 ++ e2 |}.
Proof.
  intros Hp Hps. cbn [settle]. etrans.
  { eapply run_bind.
    - unfold attempt. rewrite Hp. reflexivity.
    - eapply run_bind; [exact Hps|reflexivity]. }
  by rewrite app_nil_r.
Qed.

(** [settle] never throws and keeps one outcome per promise. *)
Lemma settle_returns {A} (ps : list (M World A)) w :
  ∃ os w' evs,
    settle ps w = {| outcome := inr os; world_after := w'; events := evs |}
    ∧ length os = length ps.
Proof.
  revert w. induction ps as [|p ps IH]; intros w.
  - by exists [], w, [].
  - destruct (IH (world_after (p w))) as (os & w' & evs & Hps & Hlen).
    eexists _, _, _. split.
    + eapply settle_cons; [apply run_eta|exact Hps].
    + cbn. by rewrite Hlen.
Qed.

Lemma collect_values {A} (vs : list A) :
  collect (map inr vs) = inr vs.
Proof. induction vs as [|v vs IH]; simpl; [done|]. by rewrite IH. Qed.

(** When every promise resolves, [Promise.all] resolves with the values. *)
Lemma Promise_all_values {A} (ps : list (M World A)) w vs w' evs :
  settle ps w = {| outcome := inr (map inr vs); world_after := w'; events := evs |} →
  Promise_all ps w = {| outcome := inr vs; world_after := w'; events := evs |}.
Proof.
  intros Hps. unfold Promise_all. etrans.
  { eapply run_bind; [exact Hps|]. rewrite collect_values. reflexivity. }
  by rewrite app_nil_r.
Qed.
End Runs.

(** ** The job invoker *)

Section Invoker.
Context {World : Type} {host : Host World}.

Lemma fetch_run req (w : World) :
  fetch req w =
    {| outcome := match fst (network req w) with
                  | Rejects e => inl e
                  | Responds res => inr res
                  end;
       world_after := snd (network req w);
       events := [ev_fetch req] |}.
Proof. reflexivity. Qed.

(** The run of [runJob] when the fetch is rejected. *)
Lemma runJob_rejected platform j env (w w' : World) e :
  network (job_request platform j env) w = (Rejects e, w') →
  let u := ru_url (fullUrl platform env (JOB_ENDPOINT j)) in
  let dur := (clock_ms w' - clock_ms w)%Z in
  let msg := default (toString e) (message e) in
  runJob platform j env w =
    {| outcome :=
         inr {| job := j; ok := false; status := None;
                ms := dur; url := u;
                baseUrl := ru_baseUrl (fullUrl platform env (JOB_ENDPOINT j));
                error := Some msg; body := None |};
       world_after := w';
       events :=
         [ev_fetch (job_request platform j env);
          ev_error ("[" ++ clock_iso w' ++ "] job=" ++ JobKey_toString j
                    ++ " fetch error durMs=" ++ Number_toString dur
                    ++ " url=" ++ u ++ " err=" ++ msg)] |}.
Proof.
  intros Hnet u dur msg. subst u dur msg.
  unfold runJob.
  etrans.
  { eapply run_bind; [reflexivity|].
    eapply run_catch.
    { eapply run_bind_throw. rewrite fetch_run, Hnet. reflexivity. }
    eapply run_bind; [reflexivity|].
    eapply run_bind; [reflexivity|].
    eapply run_bind; reflexivity. }
  reflexivity.
Qed.

(** The run of [runJob] on an ok response. *)
Lemma runJob_success platform j env (w w' : World) res :
  network (job_request platform j env) w = (Responds res, w') →
  res_ok res = true →
  let u := ru_url (fullUrl platform env (JOB_ENDPOINT j)) in
  let dur := (clock_ms w' - clock_ms w)%Z in
  runJob platform j env w =
    {| outcome :=
         inr {| job := j; ok := true; status := Some (res_status res);
                ms := dur; url := u;
                baseUrl := ru_baseUrl (fullUrl platform env (JOB_ENDPOINT j));
                error := None; body := None |};
       world_after := w';
       events :=
         [ev_fetch (job_request platform j env);
          ev_log ("[" ++ clock_iso w' ++ "] job=" ++ JobKey_toString j
                  ++ " OK status=" ++ Number_toString (res_status res)
                  ++ " durMs=" ++ Number_toString dur ++ " url=" ++ u)] |}.
Proof.
  intros Hnet Hok u dur. subst u dur.
  unfold runJob.
  etrans.
  { eapply run_bind; [reflexivity|].
    eapply run_try.
    eapply run_bind; [rewrite fetch_run, Hnet; reflexivity|].
    eapply run_bind; [reflexivity|].
    rewrite Hok. cbn [negb].
    eapply run_bind; [reflexivity|].
    eapply run_bind; reflexivity. }
  reflexivity.
Qed.

(** The run of [runJob] on a response that is not ok. *)
Lemma runJob_http_failure platform j env (w w' : World) res :
  network (job_request platform j env) w = (Responds res, w') →
  res_ok res = false →
  let u := ru_url (fullUrl platform env (JOB_ENDPOINT j)) in
  let dur := (clock_ms w' - clock_ms w)%Z in
  let trimmed := slice0 (text_or_empty (res_text res)) 1500 in
  runJob platform j env w =
    {| outcome :=
         inr {| job := j; ok := false; status := Some (res_status res);
                ms := dur; url := u;
                baseUrl := ru_baseUrl (fullUrl platform env (JOB_ENDPOINT j));
                error := Some ("HTTP " ++ Number_toString (res_status res));
                body := Some trimmed |};
       world_after := w';
       events :=
         [ev_fetch (job_request platform j env);
          ev_error ("[" ++ clock_iso w' ++ "] job=" ++ JobKey_toString j
                    ++ " status=" ++ Number_toString (res_status res)
                    ++ " durMs=" ++ Number_toString dur
                    ++ " url=" ++ u ++ " body=" ++ trimmed)] |}.
Proof.
  intros Hnet Hok u dur trimmed. subst u dur trimmed.
  unfold runJob.
  etrans.
  { eapply run_bind; [reflexivity|].
    eapply run_try.
    eapply run_bind; [rewrite fetch_run, Hnet; reflexivity|].
    eapply run_bind; [reflexivity|].
    rewrite Hok. cbn [negb].
    eapply run_bind.
    { instantiate (1 := []). instantiate (1 := w').
      instantiate (1 := text_or_empty (res_text res)).
      unfold Response_text, text_or_empty.
      destruct (res_text res) as [e|t].
      - eapply (run_catch _ _ _ _ _ [] _ _ []); reflexivity.
      - eapply run_try; reflexivity. }
    eapply run_bind; [reflexivity|].
    eapply run_bind; reflexivity. }
  reflexivity.
Qed.

(** [runJob] sends one request, writes one console line and returns the
    result of the reply: it never throws. *)
Lemma runJob_run platform j env (w : World) :
  let reply := network (job_request platform j env) w in
  let dur := (clock_ms (snd reply) - clock_ms w)%Z in
  ∃ line,
    runJob platform j env w =
      {| outcome := inr (result_of_reply platform j env dur (fst reply));
         world_after := snd reply;
         events := [ev_fetch (job_request platform j env); line] |}
    ∧ is_fetch line = false.
Proof.
  intros reply dur. subst dur reply. unfold result_of_reply.
  destruct (network (job_request platform j env) w) as [[e|res] w'] eqn:Hnet;
    cbn [fst snd].
  - eexists. split; [by apply runJob_rejected|done].
  - destruct (res_ok res) eqn:Hok.
    + eexists. split; [by apply runJob_success|done].
    + eexists. split; [by apply runJob_http_failure|done].
Qed.

(** The jobs of a tick all run, and each gives a result. *)
Lemma settle_runJob (jobs : list (Platform * JobKey)) env (w : World) :
  ∃ results w' evs,
    settle (map (λ pj, runJob pj.1 pj.2 env) jobs) w
    = {| outcome := inr (map inr results); world_after := w'; events := evs |}
    ∧ map job results = map snd jobs
    ∧ fetched evs = map (request_of env) jobs.
Proof.
  revert w. induction jobs as [|[p j] jobs IH]; intros w.
  - by exists [], w, [].
  - destruct (runJob_run p j env w) as (line & Hrun & Hline).
    cbn zeta in Hrun.
    destruct (IH (snd (network (job_request p j env) w)))
      as (rs & w' & evs & Hps & Hjobs & Hfetch).
    eexists (_ :: rs), w', _. split; [|split].
    + cbn [map]. eapply settle_cons; [exact Hrun|exact Hps].
    + cbn [map]. f_equal; [|done].
      unfold result_of_reply.
      destruct (fst _) as [e|res]; [done|]. by destruct (res_ok res).
    + rewrite fetched_app, Hfetch.
      destruct line; try discriminate; reflexivity.
Qed.

Lemma Promise_all_runJob (jobs : list (Platform * JobKey)) env (w : World) :
  ∃ results w' evs,
    Promise_all (map (λ pj, runJob pj.1 pj.2 env) jobs) w
    = {| outcome := inr results; world_after := w'; events := evs |}
    ∧ map job results = map snd jobs
    ∧ fetched evs = map (request_of env) jobs.
Proof.
  destruct (settle_runJob jobs env w) as (rs & w' & evs & Hps & Hjobs & Hfetch).
  exists rs, w', evs. split; [|done]. by apply Promise_all_values.
Qed.
End Invoker.

(** ** Alerts *)

Section Alerts.
Context {World : Type} {host : Host World}.

(** [postSlack] sends one request, may write one console line, and never
    throws. *)
Lemma postSlack_run hook payload (w : World) :
  ∃ w' evs,
    postSlack hook payload w
    = {| outcome := inr tt; world_after := w';
         events :=
           ev_fetch {| req_url := hook; req_method := "POST";
                       req_headers := [("Content-Type", "application/json")];
                       req_body := Some payload |} :: evs |}
    ∧ fetched evs = [].
Proof.
  unfold postSlack.
  destruct (network {| req_url := hook; req_method := "POST";
                       req_headers := [("Content-Type", "application/json")];
                       req_body := Some payload |} w) as [[e|res] w'] eqn:Hnet.
  - eexists _, _. split.
    + etrans.
      { eapply run_catch.
        { eapply run_bind_throw. rewrite fetch_run, Hnet. reflexivity. }
        eapply run_bind; reflexivity. }
      reflexivity.
    + done.
  - destruct (res_ok res) eqn:Hok.
    + eexists _, _. split.
      * etrans.
        { eapply run_try.
          eapply run_bind; [rewrite fetch_run, Hnet; reflexivity|].
          rewrite Hok. reflexivity. }
        reflexivity.
      * done.
    + eexists _, _. split.
      * etrans.
        { eapply run_try.
          eapply run_bind; [rewrite fetch_run, Hnet; reflexivity|].
          rewrite Hok. cbn [negb].
          eapply run_bind; reflexivity. }
        reflexivity.
      * done.
Qed.

(** An alert posts the Slack text of the result to the webhook. *)
Lemma alert_run cron hook r (w : World) :
  ∃ w' evs,
    alert cron hook r w
    = {| outcome := inr tt; world_after := w'; events := evs |}
    ∧ fetched evs
      = [{| req_url := hook; req_method := "POST";
            req_headers := [("Content-Type", "application/json")];
            req_body :=
              Some {| text := slackTextForFailure
                        {| fo_cron := cron; fo_job := job r; fo_url := url r;
                           fo_status := status r; fo_ms := ms r;
                           fo_baseUrl := baseUrl r;
                           fo_timestampISO := clock_iso w;
                           fo_body := body r |} |} |}].
Proof.
  destruct (postSlack_run hook
    {| text := slackTextForFailure
                 {| fo_cron := cron; fo_job := job r; fo_url := url r;
                    fo_status := status r; fo_ms := ms r;
                    fo_baseUrl := baseUrl r; fo_timestampISO := clock_iso w;
                    fo_body := body r |} |} w) as (w' & evs & Hpost & Hevs).
  eexists _, _. split.
  - unfold alert. eapply run_bind; [reflexivity|exact Hpost].
  - cbn [app]. change (fetched (ev_fetch ?req :: evs)) with (req :: fetched evs).
    by rewrite Hevs.
Qed.

Lemma settle_alerts cron hook (rs : list JobResult) (w : World) :
  ∃ os w' evs,
    settle (map (alert cron hook) rs) w
    = {| outcome := inr os; world_after := w'; events := evs |}
    ∧ job_calls evs = []
    ∧ length (alert_calls evs) = length rs.
Proof.
  revert w. induction rs as [|r rs IH]; intros w.
  - by exists [], w, [].
  - destruct (alert_run cron hook r w) as (w1 & e1 & Hrun & Hreq).
    destruct (IH w1) as (os & w' & evs & Hps & Hj & Ha).
    eexists _, _, _. split; [|split].
    + cbn [map]. eapply settle_cons; [exact Hrun|exact Hps].
    + rewrite job_calls_app, Hj. unfold job_calls. by rewrite Hreq.
    + rewrite alert_calls_app, length_app, Ha.
      unfold alert_calls. by rewrite Hreq.
Qed.

(** The alerting stage never throws and calls no job; without a webhook
    it does nothing, with one it posts one alert per failure that
    [shouldAlert] lets through. *)
Lemma alerting_run cron env results (w : World) :
  ∃ w' evs,
    alerting cron env results w
    = {| outcome := inr tt; world_after := w'; events := evs |}
    ∧ job_calls evs = []
    ∧ length (alert_calls evs)
      = (if truthy (trim <$> SLACK_WEBHOOK_URL env)
         then length (List.filter (λ r, shouldAlert (Some r))
                                  (List.filter failed results))
         else 0%nat).
Proof.
  unfold alerting.
  destruct (trim <$> SLACK_WEBHOOK_URL env) as [[|c hook]|]; cbn [truthy];
    [by exists w, []| |by exists w, []].
  set (rs := List.filter _ (List.filter failed results)).
  rewrite length_map.
  destruct rs as [|r rs']; [by exists w, []|].
  cbn [length Nat.ltb Nat.leb].
  destruct (settle_alerts cron (String c hook) (r :: rs') w)
    as (os & w' & evs & Hps & Hj & Ha).
  exists w', evs. split; [|done].
  unfold Promise_allSettled. etrans.
  { eapply run_bind; [exact Hps|reflexivity]. }
  by rewrite app_nil_r.
Qed.
End Alerts.

(** ** The schedule map *)

Lemma worker_lookup cron l :
  WORKER_CRON_TO_JOBS !! cron = Some l →
  cron = "0,30 12-23 * * *" ∨ cron = "15 13-15 * * *" ∨ cron = "*/1 * * * *"
  ∨ cron = "0 * * * *" ∨ cron = "*/15 * * * *".
Proof.
  unfold WORKER_CRON_TO_JOBS. intros H.
  repeat (apply lookup_insert_Some in H as [[<- _]|[_ H]]; [tauto|]).
  by rewrite lookup_empty in H.
Qed.

(** Every cron expression with web jobs is the every-minute expression,
    for which the worker has jobs as well. *)
Lemma web_lookup_nonempty cron j js :
  WEB_CRON_TO_JOBS !! cron = Some (j :: js) → cron = "*/1 * * * *".
Proof.
  unfold WEB_CRON_TO_JOBS. intros H.
  repeat (apply lookup_insert_Some in H as [[<- H]|[_ H]]; [by simplify_eq|]).
  by rewrite lookup_empty in H.
Qed.

Lemma due_jobs_nil cron :
  due_jobs cron = [] ↔ default [] (WORKER_CRON_TO_JOBS !! cron) = [].
Proof.
  unfold due_jobs. split.
  - intros H. apply app_eq_nil in H as [H _].
    by destruct (default [] (WORKER_CRON_TO_JOBS !! cron)).
  - intros Hw. rewrite Hw. cbn [map app].
    destruct (WEB_CRON_TO_JOBS !! cron) as [[|j js]|] eqn:Hweb; [done| |done].
    apply web_lookup_nonempty in Hweb as ->.
    vm_compute in Hw. discriminate.
Qed.

(** The two tables have the same keys. *)
Lemma web_lookup_of_worker cron l :
  WORKER_CRON_TO_JOBS !! cron = Some l → ∃ l', WEB_CRON_TO_JOBS !! cron = Some l'.
Proof.
  intros Hw. destruct (worker_lookup cron l Hw) as [->|[->|[->|[->| ->]]]];
    eexists; vm_compute; reflexivity.
Qed.

(** No inherited member is an array. *)
Lemma Object_prototype_members key m :
  Object_prototype !! key = Some m → (∃ n, m = m_function n) ∨ m = m_object.
Proof.
  unfold Object_prototype. intros H%elem_of_list_to_map_2.
  repeat (apply elem_of_cons in H as [H|H]; [simplify_eq; eauto|]).
  by apply elem_of_nil in H.
Qed.

(** An entry of the table hides the inherited members. *)
Lemma Object_get_own (table : gmap string (list JobKey)) key l :
  table !! key = Some l → Object_get table key = m_array l.
Proof. unfold Object_get. by intros ->. Qed.

Lemma dispatch_breaks_own cron l :
  WORKER_CRON_TO_JOBS !! cron = Some l → dispatch_breaks cron = false.
Proof. unfold dispatch_breaks. intros Hw. by rewrite (Object_get_own _ _ _ Hw). Qed.

Lemma dispatch_breaks_not_inherited cron :
  Object_prototype !! cron = None → dispatch_breaks cron = false.
Proof.
  unfold dispatch_breaks, Object_get. intros ->.
  by destruct (WORKER_CRON_TO_JOBS !! cron).
Qed.

Lemma dispatch_breaks_due cron : dispatch_breaks cron = true → due_jobs cron = [].
Proof.
  intros Hbr. apply due_jobs_nil.
  destruct (WORKER_CRON_TO_JOBS !! cron) as [l|] eqn:Hw; [|done].
  by rewrite (dispatch_breaks_own _ _ Hw) in Hbr.
Qed.

Lemma job_calls_requests env (jobs : list (Platform * JobKey)) (t : list Event) :
  fetched t = map (request_of env) jobs →
  job_calls t = map (request_of env) jobs ∧ alert_calls t = [].
Proof.
  unfold job_calls, alert_calls. intros ->.
  induction jobs as [|pj jobs [IHj IHa]]; [done|].
  cbn [map List.filter].
  change (is_alert (request_of env pj)) with false. cbn [negb].
  by rewrite IHj, IHa.
Qed.

(** ** The dispatcher *)

Section Dispatcher.
Context {World : Type} {host : Host World}.

(** A tick runs every job, never stops at the alerts, and ends as its
    last stage decides from the results. *)
Lemma tick_run cron env workerJobs webJobs (w : World) :
  let jobs := (map (pair worker) workerJobs ++ map (pair web) webJobs)%list in
  ∃ results w1 e1 w' evs,
    Promise_all (map (λ pj, runJob pj.1 pj.2 env) jobs) w
    = {| outcome := inr results; world_after := w1; events := e1 |}
    ∧ map job results = map snd jobs
    ∧ tick cron env workerJobs webJobs w
      = {| outcome := (if existsb failed results
                       then inl (Error (aggregate_message cron results))
                       else inr tt);
           world_after := w'; events := evs |}
    ∧ job_calls evs = map (request_of env) jobs
    ∧ length (alert_calls evs)
      = (if truthy (trim <$> SLACK_WEBHOOK_URL env)
         then length (List.filter (λ r, shouldAlert (Some r))
                                  (List.filter failed results))
         else 0%nat).
Proof.
  intros jobs.
  destruct (Promise_all_runJob jobs env w)
    as (results & w1 & e1 & Hall & Hjobs & Hfetch).
  destruct (alerting_run cron env results w1) as (w2 & e2 & Hal & Hajobs & Halerts).
  destruct (job_calls_requests env jobs _ Hfetch) as [Hj Ha].
  assert ((map (λ j, runJob worker j env) workerJobs
           ++ map (λ j, runJob web j env) webJobs)%list
          = map (λ pj, runJob pj.1 pj.2 env) jobs) as Hjobs_eq.
  { subst jobs. by rewrite map_app, !map_map. }
  exists results, w1, e1, w2, (e1 ++ e2 ++ [])%list.
  split; [done|]. split; [done|]. split; [|split].
  - unfold tick. rewrite Hjobs_eq.
    eapply run_bind; [exact Hall|].
    eapply run_bind; [exact Hal|].
    unfold finalizing. by destruct (existsb failed results).
  - by rewrite app_nil_r, job_calls_app, Hj, Hajobs, app_nil_r.
  - by rewrite app_nil_r, alert_calls_app, Ha.
Qed.

Lemma scheduled_closed cron env (w : World) :
  gate_open env = false →
  scheduled cron env w =
    {| outcome := inr tt; world_after := w;
       events := [ev_log ("[" ++ clock_iso w ++ "] [disabled] skipping cron=" ++ cron)] |}.
Proof. unfold scheduled, gate_open. by intros ->. Qed.

Lemma scheduled_unmapped cron env (w : World) :
  gate_open env = true →
  default [] (WORKER_CRON_TO_JOBS !! cron) = [] →
  dispatch_breaks cron = false →
  scheduled cron env w =
    {| outcome := inr tt; world_after := w;
       events := [ev_error ("[" ++ clock_iso w ++ "] no jobs mapped for cron="
                            ++ dquote ++ cron ++ dquote)] |}.
Proof.
  unfold scheduled, gate_open, dispatch_breaks, Object_get. intros -> Hw Hbr.
  cbn [negb].
  destruct (WORKER_CRON_TO_JOBS !! cron) as [[|j js]|]; [done|by cbn in Hw|].
  destruct (Object_prototype !! cron) as [m|] eqn:Hproto; [|done].
  by destruct (Object_prototype_members _ _ Hproto) as [[[|n] ->]| ->].
Qed.

(** When the member read in the worker table is inherited and passes the
    test for no jobs, the tick ends with the [TypeError] of [workerJobs.map]:
    nothing is logged and nothing is called. *)
Lemma scheduled_broken cron env (w : World) :
  gate_open env = true →
  dispatch_breaks cron = true →
  scheduled cron env w =
    {| outcome := inl (TypeError "workerJobs.map is not a function");
       world_after := w; events := [] |}.
Proof.
  unfold scheduled, gate_open, dispatch_breaks, Object_get. intros -> Hbr.
  cbn [negb].
  destruct (WORKER_CRON_TO_JOBS !! cron) as [l|]; [done|].
  by destruct (Object_prototype !! cron) as [[| |[|n]|]|].
Qed.

Lemma scheduled_mapped cron env (w : World) j js :
  gate_open env = true →
  WORKER_CRON_TO_JOBS !! cron = Some (j :: js) →
  scheduled cron env w
  = tick cron env (j :: js) (default [] (WEB_CRON_TO_JOBS !! cron)) w.
Proof.
  unfold scheduled, gate_open. intros -> Hw.
  destruct (web_lookup_of_worker _ _ Hw) as [l' Hweb].
  by rewrite (Object_get_own _ _ _ Hw), (Object_get_own _ _ _ Hweb), Hweb.
Qed.

(** With the gate open, the jobs called are the due jobs of the cron
    expression, mapped or not. *)
Lemma scheduled_job_calls cron env (w : World) :
  gate_open env = true →
  job_calls (events (scheduled cron env w)) = map (request_of env) (due_jobs cron).
Proof.
  intros Hgate.
  destruct (dispatch_breaks cron) eqn:Hbr.
  { rewrite scheduled_broken, dispatch_breaks_due by done. done. }
  destruct (WORKER_CRON_TO_JOBS !! cron) as [[|j js]|] eqn:Hw.
  - assert (due_jobs cron = []) as -> by (apply due_jobs_nil; by rewrite Hw).
    rewrite scheduled_unmapped; [done|done|by rewrite Hw|done].
  - rewrite (scheduled_mapped _ _ _ j js) by done.
    destruct (tick_run cron env (j :: js) (default [] (WEB_CRON_TO_JOBS !! cron)) w)
      as (results & w1 & e1 & w' & evs & _ & _ & Htick & Hcalls & _).
    rewrite Htick. cbn [events]. rewrite Hcalls. unfold due_jobs. by rewrite Hw.
  - assert (due_jobs cron = []) as -> by (apply due_jobs_nil; by rewrite Hw).
    rewrite scheduled_unmapped; [done|done|by rewrite Hw|done].
Qed.
End Dispatcher.

(** ** Properties of the specification *)

(** C1. [shouldAlert] returns false exactly when the status is 503, or is
    409, or is 524 for the job provideLiquidity; a result without a status
    (transport failure) and an absent result are alerted. *)
Theorem shouldAlert_suppresses_exactly :
  (∀ r : JobResult,
     shouldAlert (Some r) = false
     ↔ status r = Some 503%Z ∨ status r = Some 409%Z
       ∨ (status r = Some 524%Z ∧ job r = provideLiquidity))
  ∧ (∀ j o d u b e bd,
       shouldAlert (Some {| job := j; ok := o; status := None; ms := d; url := u;
                            baseUrl := b; error := e; body := bd |}) = true)
  ∧ shouldAlert None = true.
Proof.
  split; [|split; [done|done]].
  intros r. unfold shouldAlert.
  repeat case_bool_decide; cbn; split; try done; try tauto;
    intros [?|[?|[? ?]]]; congruence.
Qed.

Section Claims.
Context {World : Type} {host : Host World}.

(** C3. [runJob] never throws.  A rejected fetch gives a failed result
    without status whose error is the message of the thrown value; a
    response that is not ok gives a failed result with the status, the
    error [HTTP <status>] and the truncated body; an ok response gives a
    successful result.  A result has a status exactly when a response was
    obtained. *)
Theorem runJob_never_throws platform j env (w : World) :
  ∃ r,
    outcome (runJob platform j env w) = inr r
    ∧ job r = j
    ∧ match fst (network (job_request platform j env) w) with
      | Rejects e =>
          ok r = false ∧ status r = None
          ∧ error r = Some (default (toString e) (message e))
          ∧ body r = None
      | Responds res =>
          status r = Some (res_status res)
          ∧ if res_ok res
            then ok r = true ∧ error r = None ∧ body r = None
            else ok r = false
                 ∧ error r = Some ("HTTP " ++ Number_toString (res_status res))
                 ∧ body r = Some (slice0 (text_or_empty (res_text res)) 1500)
      end
    ∧ (is_Some (status r)
       ↔ ∃ res, fst (network (job_request platform j env) w) = Responds res).
Proof.
  destruct (runJob_run platform j env w) as (line & Hrun & _).
  cbn zeta in Hrun. rewrite Hrun. cbn [outcome].
  eexists. split; [reflexivity|].
  unfold result_of_reply.
  destruct (fst (network (job_request platform j env) w)) as [e|res].
  - cbn. split; [done|]. split; [done|].
    split; [by intros [? ?]|by intros [? ?]].
  - destruct (res_ok res); cbn;
      (split; [done|]; split; [done|]; split; intros _; eauto).
Qed.

(** C6. On a response that is not ok, the body kept in the result is the
    text of the response cut to its first 1500 characters: exactly 1500
    for a longer text, the text itself for a shorter one.  The same
    truncated body ends the error line of the log and is the body given to
    the Slack text of an alert for that result. *)
Theorem http_failure_body_truncated platform j env (w w' : World) res :
  network (job_request platform j env) w = (Responds res, w') →
  res_ok res = false →
  let text := text_or_empty (res_text res) in
  ∃ r trimmed prefix,
    outcome (runJob platform j env w) = inr r
    ∧ body r = Some trimmed
    ∧ (∃ rest, text = trimmed ++ rest)
    ∧ String.length trimmed = Nat.min (String.length text) 1500
    ∧ (if decide (1500 < String.length text)%nat
       then String.length trimmed = 1500%nat
       else trimmed = text)
    ∧ events (runJob platform j env w)
      = [ev_fetch (job_request platform j env);
         ev_error (prefix ++ " body=" ++ trimmed)]
    ∧ ∀ cron hook (w2 : World),
        fetched (events (alert cron hook r w2))
        = [{| req_url := hook; req_method := "POST";
              req_headers := [("Content-Type", "application/json")];
              req_body :=
                Some {| text := slackTextForFailure
                          {| fo_cron := cron; fo_job := j; fo_url := url r;
                             fo_status := Some (res_status res); fo_ms := ms r;
                             fo_baseUrl := baseUrl r;
                             fo_timestampISO := clock_iso w2;
                             fo_body := Some trimmed |} |} |}].
Proof.
  intros Hnet Hok text.
  pose proof (runJob_http_failure platform j env w w' res Hnet Hok) as Hrun.
  cbn zeta in Hrun. rewrite Hrun. cbn [outcome events].
  eexists. exists (slice0 text 1500).
  exists ("[" ++ clock_iso w' ++ "] job=" ++ JobKey_toString j
          ++ " status=" ++ Number_toString (res_status res)
          ++ " durMs=" ++ Number_toString (clock_ms w' - clock_ms w)
          ++ " url=" ++ ru_url (fullUrl platform env (JOB_ENDPOINT j))).
  split; [reflexivity|]. cbn [body]. split; [done|].
  split; [apply slice0_prefix|].
  split; [apply slice0_length|].
  split.
  { case_decide as Hlen.
    - rewrite slice0_length. lia.
    - apply slice0_short. lia. }
  split.
  { do 2 f_equal. f_equal.
    by rewrite !append_assoc. }
  intros cron hook w2.
  match goal with
  | |- context [alert cron hook ?r w2] =>
      destruct (alert_run cron hook r w2) as (w3 & evs & -> & Hfetch)
  end.
  exact Hfetch.
Qed.

(** C7. The request of a job invocation: its URL is the base URL of the
    backend without its trailing slashes, followed by the path of the job;
    its method is the method of the job; the Internal-Authorization header
    with the shared secret is there exactly when the path starts with
    /api/internal/, which is every job but healthz. *)
Theorem job_invocation_request platform j env (w : World) :
  ∃ req stripped n,
    fetched (events (runJob platform j env w)) = [req]
    ∧ base_of platform env = stripped ++ slashes n
    ∧ last_char stripped ≠ Some "/"%char
    ∧ req_url req = stripped ++ ep_path (JOB_ENDPOINT j)
    ∧ req_method req = ep_method (JOB_ENDPOINT j)
    ∧ req_body req = None
    ∧ req_headers req
      = (if startsWith (ep_path (JOB_ENDPOINT j)) "/api/internal/"
         then [("Internal-Authorization", INTERNAL_API_KEY env)]
         else [])
    ∧ (startsWith (ep_path (JOB_ENDPOINT j)) "/api/internal/" = false
       ↔ j = healthz)
    ∧ JOB_ENDPOINT healthz = {| ep_method := "GET"; ep_path := "/api/healthz" |}.
Proof.
  destruct (runJob_run platform j env w) as (line & Hrun & Hline).
  cbn zeta in Hrun. rewrite Hrun. cbn [events].
  destruct (replace_trailing_slashes_split (base_of platform env))
    as (n & Hsplit & Hlast).
  exists (job_request platform j env),
    (replace_trailing_slashes (base_of platform env)), n.
  split. { destruct line; try discriminate; reflexivity. }
  split; [exact Hsplit|]. split; [exact Hlast|].
  split. { unfold job_request, fullUrl, base_of. by destruct platform. }
  split; [done|]. split; [done|]. split; [done|].
  split; [|done].
  destruct j; vm_compute; split; congruence.
Qed.

(** C8. The HTTP handler answers 200 with body ok to GET on the path /,
    and 404 to every other path and method; it performs nothing else, so
    no job is invoked. *)
Theorem fetch_handler_liveness req (w : World) :
  fetch_handler req w =
    {| outcome :=
         inr (if bool_decide (in_method req = "GET" ∧ in_pathname req = "/")
              then {| hr_body := "ok"; hr_status := 200 |}
              else {| hr_body := "not found"; hr_status := 404 |});
       world_after := w;
       events := [] |}.
Proof.
  unfold fetch_handler.
  destruct (String.eqb_spec (in_pathname req) "/") as [Hp|Hp];
    destruct (String.eqb_spec (in_method req) "GET") as [Hm|Hm];
    cbn [andb]; case_bool_decide; try reflexivity; tauto.
Qed.
End Claims.

(** ** The feature gate, the schedule and the end of a tick *)

Lemma gate_open_iff env : gate_open env = true ↔ ENABLED env = Some "true".
Proof.
  unfold gate_open. rewrite String.eqb_eq.
  destruct (ENABLED env) as [v|]; cbn; split; intros H;
    try discriminate; congruence.
Qed.

Lemma trim_whitespace s : all_chars is_whitespace s = true → trim s = "".
Proof.
  unfold trim. intros Hall.
  assert (drop_leading is_whitespace s = "") as ->; [|done].
  induction s as [|c r IH]; [done|]. cbn in *.
  apply andb_prop in Hall as [-> Hr]. auto.
Qed.

Lemma webhook_falsy env :
  SLACK_WEBHOOK_URL env = None
  ∨ (∃ s, SLACK_WEBHOOK_URL env = Some s ∧ all_chars is_whitespace s = true) →
  truthy (trim <$> SLACK_WEBHOOK_URL env) = false.
Proof.
  intros [->|(s & -> & Hs)]; [done|]. cbn. by rewrite trim_whitespace.
Qed.

Section Ticks.
Context {World : Type} {host : Host World}.

(** C5. With the feature gate closed, [scheduled] writes the skip notice
    with the cron expression and returns: no job is invoked, no alert is
    sent, nothing is thrown, whatever the schedule maps the expression
    to. *)
Theorem gate_closed_skips cron env (w : World) :
  gate_open env = false →
  scheduled cron env w =
    {| outcome := inr tt; world_after := w;
       events := [ev_log ("[" ++ clock_iso w ++ "] [disabled] skipping cron=" ++ cron)] |}
  ∧ job_calls (events (scheduled cron env w)) = []
  ∧ alert_calls (events (scheduled cron env w)) = [].
Proof. intros Hgate. by rewrite scheduled_closed. Qed.

(** C9. The gate is an exact comparison with the string true: with
    [ENABLED] equal to it the due jobs of the expression are called, with
    any other value, or none, the tick only writes the skip notice. *)
Theorem feature_gate_exact cron env (w : World) :
  (gate_open env = true ↔ ENABLED env = Some "true")
  ∧ ((ENABLED env = Some "true"
      ∧ job_calls (events (scheduled cron env w))
        = map (request_of env) (due_jobs cron))
     ∨ (ENABLED env ≠ Some "true"
        ∧ scheduled cron env w =
            {| outcome := inr tt; world_after := w;
               events := [ev_log ("[" ++ clock_iso w
                                  ++ "] [disabled] skipping cron=" ++ cron)] |}))
  ∧ Forall (λ flag,
              scheduled cron (with_enabled env flag) w =
                {| outcome := inr tt; world_after := w;
                   events := [ev_log ("[" ++ clock_iso w
                                      ++ "] [disabled] skipping cron=" ++ cron)] |})
           [Some "TRUE"; Some "True"; Some "1"; Some "true "; Some " true";
            Some "false"; Some ""; None]
  ∧ due_jobs "0 * * * *" = [(worker, provideLiquidity)].
Proof.
  split; [apply gate_open_iff|]. split; [|split].
  - destruct (gate_open env) eqn:Hgate.
    + left. split; [by apply gate_open_iff|]. by apply scheduled_job_calls.
    + right. split.
      * intros H%gate_open_iff. congruence.
      * by apply scheduled_closed.
  - repeat (constructor; [by apply scheduled_closed|]). constructor.
  - by vm_compute.
Qed.

(** C4. The code does not keep the claim at the names of the members that
    the tables inherit from [Object.prototype].  Neither table has an entry
    for [constructor], [__proto__] or an inherited method with parameters,
    yet with the gate open the tick neither writes the diagnostic nor
    returns: the inherited member passes the test for no jobs, and the tick
    ends with the [TypeError] of [workerJobs.map], nothing logged and no
    job called. *)
Theorem unmapped_inherited_name_throws env (w : World) :
  Forall (λ cron,
            WORKER_CRON_TO_JOBS !! cron = None
            ∧ WEB_CRON_TO_JOBS !! cron = None
            ∧ scheduled cron (with_enabled env (Some "true")) w
              = {| outcome := inl (TypeError "workerJobs.map is not a function");
                   world_after := w; events := [] |})
         ["constructor"; "__proto__"; "hasOwnProperty"; "isPrototypeOf";
          "propertyIsEnumerable"; "__defineGetter__"; "__defineSetter__";
          "__lookupGetter__"; "__lookupSetter__"].
Proof.
  repeat (constructor;
          [split; [by vm_compute|]; split; [by vm_compute|];
           apply scheduled_broken; by vm_compute|]).
  constructor.
Qed.

(** X12. Schedule resolution, for every cron expression whose lookup in the
    worker table is not an inherited member that passes the test for no
    jobs.  With the gate open: when no backend has a job for the
    expression, [scheduled] writes the diagnostic and returns without
    error and without a network call; when some backend has one, the jobs
    called are the due jobs of all backends, each sent to its own
    backend. *)
Theorem schedule_resolution cron env (w : World) :
  gate_open env = true →
  dispatch_breaks cron = false →
  (due_jobs cron = []
   ∧ scheduled cron env w =
       {| outcome := inr tt; world_after := w;
          events := [ev_error ("[" ++ clock_iso w ++ "] no jobs mapped for cron="
                               ++ dquote ++ cron ++ dquote)] |})
  ∨ (due_jobs cron ≠ []
     ∧ job_calls (events (scheduled cron env w))
       = map (λ pj, job_request pj.1 pj.2 env)
             (map (pair worker) (default [] (WORKER_CRON_TO_JOBS !! cron))
              ++ map (pair web) (default [] (WEB_CRON_TO_JOBS !! cron)))).
Proof.
  intros Hgate Hbr.
  destruct (decide (due_jobs cron = [])) as [Hnil|Hdue].
  - left. split; [done|].
    apply scheduled_unmapped; [done| |done]. by apply due_jobs_nil.
  - right. split; [done|]. by apply scheduled_job_calls.
Qed.

(** C2. A tick that runs jobs ends with the aggregate error exactly when
    some result is failed.  The message gives the number of failed
    results over the number of results, and the number of failed results
    that [shouldAlert] lets through; a failure that is not alerted still
    counts as failed. *)
Theorem aggregate_error_iff_failed cron env (w : World) :
  gate_open env = true →
  due_jobs cron ≠ [] →
  ∃ results,
    outcome (Promise_all (map (λ pj, runJob pj.1 pj.2 env) (due_jobs cron)) w)
    = inr results
    ∧ length results = length (due_jobs cron)
    ∧ ((∃ e, outcome (scheduled cron env w) = inl e)
       ↔ Exists (λ r, ok r = false) results)
    ∧ outcome (scheduled cron env w)
      = (if existsb (λ r, negb (ok r)) results
         then inl (Error
           ("Some jobs failed for cron=" ++ cron ++ ": "
            ++ Number_toString
                 (Z.of_nat (length (List.filter (λ r, negb (ok r)) results)))
            ++ "/" ++ Number_toString (Z.of_nat (length results))
            ++ " (unexpected failures="
            ++ Number_toString
                 (Z.of_nat (length
                    (List.filter (λ r, shouldAlert (Some r))
                                 (List.filter (λ r, negb (ok r)) results))))
            ++ ")"))
         else inr tt).
Proof.
  intros Hgate Hdue.
  destruct (WORKER_CRON_TO_JOBS !! cron) as [[|j js]|] eqn:Hw;
    try (exfalso; apply Hdue, due_jobs_nil; by rewrite Hw).
  rewrite (scheduled_mapped _ _ _ j js) by done.
  destruct (tick_run cron env (j :: js) (default [] (WEB_CRON_TO_JOBS !! cron)) w)
    as (results & w1 & e1 & w' & evs & Hall & Hjobs & Htick & _).
  cbn zeta in *.
  assert (due_jobs cron
          = (map (pair worker) (j :: js)
             ++ map (pair web) (default [] (WEB_CRON_TO_JOBS !! cron)))%list) as Hd.
  { unfold due_jobs. by rewrite Hw. }
  rewrite Hd, Hall, Htick. cbn [outcome]. exists results. split; [done|].
  split.
  { rewrite <- (length_map job results), Hjobs. by rewrite length_map. }
  split; [|done].
  destruct (existsb failed results) eqn:Hex.
  - split; [|eauto]. intros _.
    apply existsb_exists in Hex as (r & Hin & Hr).
    apply Exists_exists. exists r. split; [by apply list_elem_of_In|].
    unfold failed in Hr. by destruct (ok r).
  - split; [by intros [? ?]|]. intros (r & Hin & Hr)%Exists_exists.
    assert (existsb failed results = true) as Hex'; [|congruence].
    apply existsb_exists. exists r. split; [by apply list_elem_of_In|].
    unfold failed. by rewrite Hr.
Qed.

(** C10. Without a usable webhook (unset, empty, or only white space, as
    the value is trimmed first) no alert is sent; the jobs called and the
    way the tick ends, aggregate error and its counts included, are those
    of the same tick with any other setting of the webhook. *)
Theorem no_webhook_no_alerts cron env (w : World) :
  SLACK_WEBHOOK_URL env = None
  ∨ (∃ s, SLACK_WEBHOOK_URL env = Some s ∧ all_chars is_whitespace s = true) →
  alert_calls (events (scheduled cron env w)) = []
  ∧ ∀ hook,
      outcome (scheduled cron (with_webhook env hook) w)
      = outcome (scheduled cron env w)
      ∧ job_calls (events (scheduled cron (with_webhook env hook) w))
        = job_calls (events (scheduled cron env w)).
Proof.
  intros Hhook%webhook_falsy.
  destruct (gate_open env) eqn:Hgate.
  - destruct (dispatch_breaks cron) eqn:Hbr.
    { rewrite scheduled_broken by done. split; [done|]. intros hook.
      by rewrite scheduled_broken. }
    destruct (WORKER_CRON_TO_JOBS !! cron) as [[|j js]|] eqn:Hw;
      try (rewrite scheduled_unmapped; [|done|by rewrite Hw|done];
           split; [done|]; intros hook;
           rewrite scheduled_unmapped; [done|done|by rewrite Hw|done]).
    rewrite (scheduled_mapped _ _ _ j js) by done.
    destruct (tick_run cron env (j :: js) (default [] (WEB_CRON_TO_JOBS !! cron)) w)
      as (results & w1 & e1 & w2 & evs & Hall & _ & Htick & Hcalls & Halerts).
    cbn zeta in *. rewrite Hhook in Halerts. rewrite Htick. cbn [outcome events].
    split.
    { by apply length_zero_iff_nil. }
    intros hook.
    rewrite (scheduled_mapped _ (with_webhook env hook) _ j js) by done.
    destruct (tick_run cron (with_webhook env hook) (j :: js)
                (default [] (WEB_CRON_TO_JOBS !! cron)) w)
      as (results' & w1' & e1' & w2' & evs' & Hall' & _ & Htick' & Hcalls' & _).
    cbn zeta in *.
    change (λ pj : Platform * JobKey, runJob pj.1 pj.2 (with_webhook env hook))
      with (λ pj : Platform * JobKey, runJob pj.1 pj.2 env) in Hall'.
    assert (results' = results) as -> by congruence.
    rewrite Htick'. cbn [outcome events]. by rewrite Hcalls, Hcalls'.
  - rewrite scheduled_closed by done. split; [done|]. intros hook.
    rewrite scheduled_closed by done. done.
Qed.
End Ticks.

(** ** Concrete ticks *)

(** Two jobs answered 503: the tick ends with the aggregate error, both
    failures are counted, none is unexpected, and no alert is sent although a
    webhook is configured. *)
Lemma aggregate_error_two_503 :
  gate_open env_alerting = true
  ∧ due_jobs "*/15 * * * *" ≠ []
  ∧ outcome (scheduled (host := always (http 503 "busy")) "*/15 * * * *" env_alerting tt)
    = inl (Error "Some jobs failed for cron=*/15 * * * *: 2/2 (unexpected failures=0)")
  ∧ alert_calls
      (events (scheduled (host := always (http 503 "busy")) "*/15 * * * *"
                         env_alerting tt))
    = [].
Proof.
  assert (gate_open env_alerting = true) as Hgate by reflexivity.
  assert (due_jobs "*/15 * * * *" ≠ []) as Hdue by (vm_compute; discriminate).
  split; [exact Hgate|]. split; [exact Hdue|].
  destruct (aggregate_error_iff_failed (host := always (http 503 "busy"))
              "*/15 * * * *" env_alerting tt Hgate Hdue)
    as (results & Hall & _ & _ & Hout).
  split.
  - rewrite Hout. vm_compute in Hall. injection Hall as <-. vm_compute. reflexivity.
  - vm_compute. reflexivity.
Defined.

(** The every-minute expression has jobs on both backends: all four are
    called, each at its own backend. *)
Lemma schedule_resolution_every_minute :
  gate_open env_silent = true
  ∧ dispatch_breaks "*/1 * * * *" = false
  ∧ job_calls (events (scheduled (host := always (http 200 "ok")) "*/1 * * * *"
                                 env_silent tt))
    = [job_request worker syncChroniclesUpdates env_silent;
       job_request worker syncUserStakes env_silent;
       job_request worker healthz env_silent;
       job_request web healthz env_silent].
Proof.
  split; [reflexivity|]. split; [reflexivity|].
  destruct (schedule_resolution (host := always (http 200 "ok"))
              "*/1 * * * *" env_silent tt eq_refl eq_refl) as [[Hnil _]|[_ Hcalls]].
  - vm_compute in Hnil. discriminate.
  - rewrite Hcalls. vm_compute. reflexivity.
Defined.

(** An expression that no table maps: one diagnostic line, nothing else. *)
Example unmapped_cron_is_quiet :
  scheduled (host := always (http 200 "ok")) "5 4 * * *" env_silent tt
  = {| outcome := inr tt; world_after := tt;
       events := [ev_error ("[2025-01-01T00:00:00.000Z] no jobs mapped for cron="
                            ++ dquote ++ "5 4 * * *" ++ dquote)] |}.
Proof. vm_compute. reflexivity. Qed.

(** The gate closed on the every-minute expression: the skip notice only. *)
Lemma gate_closed_skips_witness :
  gate_open env_disabled = false
  ∧ scheduled (host := always (http 500 "down")) "*/1 * * * *" env_disabled tt
    = {| outcome := inr tt; world_after := tt;
         events := [ev_log "[2025-01-01T00:00:00.000Z] [disabled] skipping cron=*/1 * * * *"] |}.
Proof.
  split; [reflexivity|].
  destruct (gate_closed_skips (host := always (http 500 "down"))
              "*/1 * * * *" env_disabled tt eq_refl) as [Hrun _].
  rewrite Hrun. vm_compute. reflexivity.
Defined.

(** A response 500 whose text has 1600 characters: the body kept has 1500. *)
Lemma http_failure_body_truncated_witness :
  res_ok long_failure = false
  ∧ ∃ r trimmed,
      outcome (runJob (host := always (Responds long_failure))
                      worker shieldClean env_silent tt) = inr r
      ∧ body r = Some trimmed
      ∧ String.length trimmed = 1500%nat
      ∧ trimmed = slashes 1500.
Proof.
  split; [reflexivity|].
  destruct (http_failure_body_truncated (host := always (Responds long_failure))
              worker shieldClean env_silent tt tt long_failure eq_refl eq_refl)
    as (r & trimmed & prefix & Hout & Hbody & [rest Hrest] & Hlen & Hcut & _).
  exists r, trimmed. split; [exact Hout|]. split; [exact Hbody|].
  assert (String.length trimmed = 1500%nat) as Hlen'.
  { rewrite Hlen. vm_compute. reflexivity. }
  split; [exact Hlen'|].
  vm_compute in Hout. injection Hout as <-. cbn [body] in Hbody.
  injection Hbody as <-. vm_compute. reflexivity.
Defined.

(** A webhook of white space only is no webhook: four failures, no alert,
    and the same end as with a webhook. *)
Lemma no_webhook_no_alerts_witness :
  alert_calls (events (scheduled (host := always (http 500 "down")) "*/1 * * * *"
                                 env_blank_hook tt))
  = []
  ∧ outcome (scheduled (host := always (http 500 "down")) "*/1 * * * *"
                       (with_webhook env_blank_hook (Some "https://hooks.slack.com/T0")) tt)
    = inl (Error "Some jobs failed for cron=*/1 * * * *: 4/4 (unexpected failures=4)")
  ∧ length (alert_calls
      (events (scheduled (host := always (http 500 "down")) "*/1 * * * *"
                 (with_webhook env_blank_hook (Some "https://hooks.slack.com/T0")) tt)))
    = 4%nat.
Proof.
  assert (SLACK_WEBHOOK_URL env_blank_hook = None
          ∨ (∃ s, SLACK_WEBHOOK_URL env_blank_hook = Some s
                  ∧ all_chars is_whitespace s = true))
    as Hhook.
  { right. exists "  ". split; reflexivity. }
  destruct (no_webhook_no_alerts (host := always (http 500 "down"))
              "*/1 * * * *" env_blank_hook tt Hhook) as [Hnone Hsame].
  split; [exact Hnone|].
  destruct (Hsame (Some "https://hooks.slack.com/T0")) as [Hout _].
  split.
  - rewrite Hout. vm_compute. reflexivity.
  - vm_compute. reflexivity.
Defined.

(** One success and one 500: one alert, for the failed job. *)
Example one_unexpected_failure :
  outcome (scheduled (host := one_job_up) "*/15 * * * *" env_alerting tt)
  = inl (Error "Some jobs failed for cron=*/15 * * * *: 1/2 (unexpected failures=1)")
  ∧ length (alert_calls
      (events (scheduled (host := one_job_up) "*/15 * * * *" env_alerting tt)))
    = 1%nat.
Proof. vm_compute. split; reflexivity. Qed.

(** ** More on strings *)

Lemma append_nil_r (s : string) : s ++ "" = s.
Proof. induction s as [|c s IH]; [done|]. by rewrite append_cons, IH. Qed.

Lemma all_chars_app p (s t : string) :
  all_chars p (s ++ t) = all_chars p s && all_chars p t.
Proof.
  induction s as [|c s IH]; [done|].
  rewrite append_cons. cbn [all_chars]. by rewrite IH, andb_assoc.
Qed.

Lemma replace_trailing_slashes_app s n :
  replace_trailing_slashes (s ++ slashes n) = replace_trailing_slashes s.
Proof.
  unfold replace_trailing_slashes. induction s as [|c s IH].
  - rewrite append_nil_l. destruct n as [|n]; [done|].
    cbn [slashes drop_trailing]. by rewrite all_chars_of_slashes.
  - rewrite append_cons. cbn [drop_trailing].
    rewrite all_chars_app, all_chars_of_slashes, andb_true_r, IH. done.
Qed.

Lemma drop_leading_nonempty p s :
  all_chars p s = false →
  ∃ c r, drop_leading p s = String c r ∧ p c = false.
Proof.
  induction s as [|c s IH]; [done|]. cbn [all_chars drop_leading].
  destruct (p c) eqn:Hc; cbn [andb]; [exact IH|]. intros _. by exists c, s.
Qed.

Lemma trim_nonempty s :
  all_chars is_whitespace s = false → ∃ c r, trim s = String c r.
Proof.
  intros (c & r & Hlead & Hc)%drop_leading_nonempty.
  unfold trim. rewrite Hlead. cbn [drop_trailing]. rewrite Hc. cbn [andb]. eauto.
Qed.

(** ** More on traces *)

Lemma alert_calls_only (t : list Event) :
  job_calls t = [] → alert_calls t = fetched t.
Proof.
  unfold job_calls, alert_calls. induction (fetched t) as [|req reqs IH]; [done|].
  cbn [List.filter]. destruct (is_alert req); cbn [negb]; [|done].
  intros H. by rewrite IH.
Qed.

Lemma alert_requests_are_alerts cron hook (rs : list JobResult) (t : list Event) :
  Forall2 (λ r req, ∃ ts, req = alert_request cron hook r ts) rs (fetched t) →
  job_calls t = [].
Proof.
  unfold job_calls. induction 1 as [|r req rs reqs [ts ->] _ IH]; [done|].
  cbn [List.filter]. by change (is_alert (alert_request cron hook r ts)) with true.
Qed.

(** ** The stages of a tick *)

Section Stages.
Context {World : Type} {host : Host World}.

Lemma settle_job_results (jobs : list (Platform * JobKey)) env (w : World) :
  ∃ evs,
    settle (map (λ pj, runJob pj.1 pj.2 env) jobs) w
    = {| outcome := inr (map inr (job_results env jobs w).1);
         world_after := (job_results env jobs w).2;
         events := evs |}
    ∧ fetched evs = map (request_of env) jobs.
Proof.
  revert w. induction jobs as [|[p j] jobs IH]; intros w.
  - by exists [].
  - destruct (runJob_run p j env w) as (line & Hrun & Hline).
    cbn zeta in Hrun.
    destruct (IH (snd (network (job_request p j env) w))) as (evs & Hps & Hfetch).
    eexists. split.
    + cbn [map job_results fst snd]. eapply settle_cons; [exact Hrun|exact Hps].
    + rewrite fetched_app, Hfetch.
      destruct line; try discriminate; reflexivity.
Qed.

Lemma Promise_all_job_results (jobs : list (Platform * JobKey)) env (w : World) :
  ∃ evs,
    Promise_all (map (λ pj, runJob pj.1 pj.2 env) jobs) w
    = {| outcome := inr (job_results env jobs w).1;
         world_after := (job_results env jobs w).2;
         events := evs |}
    ∧ fetched evs = map (request_of env) jobs.
Proof.
  destruct (settle_job_results jobs env w) as (evs & Hps & Hfetch).
  exists evs. split; [|done]. by apply Promise_all_values.
Qed.

Lemma job_results_length (jobs : list (Platform * JobKey)) env (w : World) :
  length (job_results env jobs w).1 = length jobs.
Proof.
  revert w. induction jobs as [|pj jobs IH]; intros w; [done|].
  cbn [job_results fst length]. by rewrite IH.
Qed.

(** What holds of the result of every reply holds of every result. *)
Lemma job_results_Forall (P : JobResult → Prop) (jobs : list (Platform * JobKey))
    env (w : World) :
  (∀ p j w0,
     P (result_of_reply p j env
          (clock_ms (network (job_request p j env) w0).2 - clock_ms w0)
          (network (job_request p j env) w0).1)) →
  Forall P (job_results env jobs w).1.
Proof.
  intros HP. revert w. induction jobs as [|pj jobs IH]; intros w.
  - constructor.
  - cbn [job_results fst]. constructor; [apply HP|apply IH].
Qed.

Lemma settle_alert_requests cron hook (rs : list JobResult) (w : World) :
  ∃ os w' evs,
    settle (map (alert cron hook) rs) w
    = {| outcome := inr os; world_after := w'; events := evs |}
    ∧ Forall2 (λ r req, ∃ ts, req = alert_request cron hook r ts) rs (fetched evs).
Proof.
  revert w. induction rs as [|r rs IH]; intros w.
  - exists [], w, []. split; [done|constructor].
  - destruct (alert_run cron hook r w) as (w1 & e1 & Hrun & Hreq).
    destruct (IH w1) as (os & w' & evs & Hps & Hall).
    eexists _, _, _. split.
    + cbn [map]. eapply settle_cons; [exact Hrun|exact Hps].
    + rewrite fetched_app, Hreq. cbn [app]. constructor; [|done].
      by exists (clock_iso w).
Qed.

(** The alerting stage: nothing without a webhook, and with one the alerts
    of the failures that [shouldAlert] lets through, in their order. *)
Lemma alerting_posts cron env results (w : World) :
  ∃ w' evs,
    alerting cron env results w
    = {| outcome := inr tt; world_after := w'; events := evs |}
    ∧ job_calls evs = []
    ∧ match trim <$> SLACK_WEBHOOK_URL env with
      | Some (String c h) =>
          Forall2 (λ r req, ∃ ts, req = alert_request cron (String c h) r ts)
                  (List.filter (λ r, shouldAlert (Some r)) (List.filter failed results))
                  (fetched evs)
      | _ => evs = []
      end.
Proof.
  unfold alerting.
  destruct (trim <$> SLACK_WEBHOOK_URL env) as [[|c hook]|];
    [by exists w, []| |by exists w, []].
  set (rs := List.filter _ (List.filter failed results)).
  rewrite length_map.
  destruct rs as [|r rs'] eqn:Hrs.
  { exists w, []. split; [done|]. split; [done|constructor]. }
  cbn [length Nat.ltb Nat.leb].
  destruct (settle_alert_requests cron (String c hook) (r :: rs') w)
    as (os & w' & evs & Hps & Hall).
  exists w', evs. split; [|split; [|done]].
  - unfold Promise_allSettled. etrans.
    { eapply run_bind; [exact Hps|reflexivity]. }
    by rewrite app_nil_r.
  - by eapply alert_requests_are_alerts.
Qed.

(** A tick with the gate open: the jobs, then the alerts, then the end
    that the results decide; or the [TypeError] before any job. *)
Lemma scheduled_stages cron env (w : World) :
  gate_open env = true →
  ∃ e1 w2 e2,
    alerting cron env (job_results env (due_jobs cron) w).1
                      (job_results env (due_jobs cron) w).2
    = {| outcome := inr tt; world_after := w2; events := e2 |}
    ∧ outcome (scheduled cron env w)
      = (if dispatch_breaks cron
         then inl (TypeError "workerJobs.map is not a function")
         else if existsb failed (job_results env (due_jobs cron) w).1
         then inl (Error (aggregate_message cron (job_results env (due_jobs cron) w).1))
         else inr tt)
    ∧ fetched (events (scheduled cron env w)) = (fetched e1 ++ fetched e2)%list
    ∧ fetched e1 = map (request_of env) (due_jobs cron)
    ∧ (due_jobs cron = [] → e2 = []).
Proof.
  intros Hgate.
  destruct (dispatch_breaks cron) eqn:Hbr.
  { rewrite scheduled_broken, (dispatch_breaks_due _ Hbr) by done.
    cbn [job_results fst snd].
    exists [], w, []. unfold alerting.
    by destruct (trim <$> SLACK_WEBHOOK_URL env) as [[|c h]|]. }
  destruct (WORKER_CRON_TO_JOBS !! cron) as [[|j js]|] eqn:Hw.
  1,3: assert (due_jobs cron = []) as Hnil by (apply due_jobs_nil; by rewrite Hw);
       rewrite Hnil; cbn [job_results fst snd existsb];
       rewrite scheduled_unmapped by (done || by rewrite Hw);
       exists [], w, []; unfold alerting;
       by destruct (trim <$> SLACK_WEBHOOK_URL env) as [[|c h]|].
  rewrite (scheduled_mapped _ _ _ j js) by done.
  assert (due_jobs cron
          = (map (pair worker) (j :: js)
             ++ map (pair web) (default [] (WEB_CRON_TO_JOBS !! cron)))%list) as Hd.
  { unfold due_jobs. by rewrite Hw. }
  destruct (Promise_all_job_results (due_jobs cron) env w) as (e1 & Hall & Hfetch).
  destruct (alerting_posts cron env (job_results env (due_jobs cron) w).1
              (job_results env (due_jobs cron) w).2) as (w2 & e2 & Hal & _ & _).
  assert ((map (λ j, runJob worker j env) (j :: js)
           ++ map (λ j, runJob web j env) (default [] (WEB_CRON_TO_JOBS !! cron)))%list
          = map (λ pj, runJob pj.1 pj.2 env) (due_jobs cron)) as Hjobs_eq.
  { rewrite Hd. by rewrite map_app, !map_map. }
  assert (tick cron env (j :: js) (default [] (WEB_CRON_TO_JOBS !! cron)) w
          = {| outcome :=
                 (if existsb failed (job_results env (due_jobs cron) w).1
                  then inl (Error (aggregate_message cron
                                     (job_results env (due_jobs cron) w).1))
                  else inr tt);
               world_after := w2; events := e1 ++ e2 ++ [] |}) as Htick.
  { unfold tick. rewrite Hjobs_eq.
    eapply run_bind; [exact Hall|].
    eapply run_bind; [exact Hal|].
    unfold finalizing. by destruct (existsb failed _). }
  exists e1, w2, e2. rewrite Htick. cbn [outcome events].
  split; [done|]. split; [done|]. split; [by rewrite app_nil_r, fetched_app|].
  split; [done|]. intros Hnil. rewrite Hnil in Hd. by destruct js.
Qed.
End Stages.

(** ** Further properties of the worker *)

(** X6. Slashes appended to a base URL change no request: the URL, the
    method and the headers of every job stay the same. *)
Theorem trailing_slashes_irrelevant platform j env n m :
  job_request platform j
    (with_base_urls env (BASE_URL env ++ slashes n) (WEB_URL env ++ slashes m))
  = job_request platform j env.
Proof.
  unfold job_request, fullUrl. cbn [ru_url ru_method].
  destruct platform; cbn [BASE_URL WEB_URL with_base_urls INTERNAL_API_KEY];
    by rewrite replace_trailing_slashes_app.
Qed.

(** X2. The Slack text with an empty body is the text without a body; with
    a body that is not empty, it is the text without a body followed by the
    fenced body. *)
Theorem slackText_body_snippet opts :
  slackTextForFailure (with_body opts (Some "")) = slackTextForFailure (with_body opts None)
  ∧ ∀ c b,
      slackTextForFailure (with_body opts (Some (String c b)))
      = slackTextForFailure (with_body opts None)
        ++ newline ++ bullet ++ " *Body (trimmed)*:" ++ newline
        ++ "```" ++ newline ++ String c b ++ newline ++ "```".
Proof.
  split; [reflexivity|]. intros c b.
  unfold slackTextForFailure, with_body.
  cbn [fo_cron fo_job fo_url fo_status fo_ms fo_baseUrl fo_timestampISO fo_body].
  rewrite !append_assoc. repeat f_equal.
Qed.

Section Further.
Context {World : Type} {host : Host World}.

(** X1. [postSlack] never throws.  It sends one POST with the payload to
    the webhook and writes one error line when the fetch is rejected or the
    response is not ok, and nothing when the response is ok. *)
Theorem postSlack_swallows_failures hook payload (w : World) :
  postSlack hook payload w =
    {| outcome := inr tt;
       world_after := (network {| req_url := hook; req_method := "POST";
                                  req_headers := [("Content-Type", "application/json")];
                                  req_body := Some payload |} w).2;
       events :=
         ev_fetch {| req_url := hook; req_method := "POST";
                     req_headers := [("Content-Type", "application/json")];
                     req_body := Some payload |}
         :: match (network {| req_url := hook; req_method := "POST";
                              req_headers := [("Content-Type", "application/json")];
                              req_body := Some payload |} w).1 with
            | Rejects e =>
                [ev_error ("[" ++ clock_iso
                             (network {| req_url := hook; req_method := "POST";
                                         req_headers := [("Content-Type", "application/json")];
                                         req_body := Some payload |} w).2
                           ++ "] Slack webhook error: "
                           ++ default (toString e) (message e))]
            | Responds res =>
                if res_ok res then []
                else [ev_error ("[" ++ clock_iso
                                  (network {| req_url := hook; req_method := "POST";
                                              req_headers := [("Content-Type", "application/json")];
                                              req_body := Some payload |} w).2
                                ++ "] Slack webhook failed status="
                                ++ Number_toString (res_status res))]
            end |}.
Proof.
  unfold postSlack.
  destruct (network {| req_url := hook; req_method := "POST";
                       req_headers := [("Content-Type", "application/json")];
                       req_body := Some payload |} w) as [[e|res] w'] eqn:Hnet;
    cbn [fst snd].
  - etrans.
    { eapply run_catch.
      { eapply run_bind_throw. rewrite fetch_run, Hnet. reflexivity. }
      eapply run_bind; reflexivity. }
    reflexivity.
  - destruct (res_ok res) eqn:Hok.
    + etrans.
      { eapply run_try.
        eapply run_bind; [rewrite fetch_run, Hnet; reflexivity|].
        rewrite Hok. reflexivity. }
      reflexivity.
    + etrans.
      { eapply run_try.
        eapply run_bind; [rewrite fetch_run, Hnet; reflexivity|].
        rewrite Hok. cbn [negb].
        eapply run_bind; reflexivity. }
      reflexivity.
Qed.

(** X5. The result of [runJob] names the job, carries the URL that was
    requested, the base URL as configured (slashes included) and the time
    the clock moved during the call; the one console line is written with
    [console.log] for a success and with [console.error] for a failure. *)
Theorem runJob_result_and_log platform j env (w : World) :
  ∃ r line,
    runJob platform j env w
    = {| outcome := inr r;
         world_after := (network (job_request platform j env) w).2;
         events := [ev_fetch (job_request platform j env); line] |}
    ∧ job r = j
    ∧ url r = req_url (job_request platform j env)
    ∧ baseUrl r = base_of platform env
    ∧ ms r = (clock_ms (network (job_request platform j env) w).2 - clock_ms w)%Z
    ∧ ((ok r = true ∧ ∃ l, line = ev_log l) ∨ (ok r = false ∧ ∃ l, line = ev_error l)).
Proof.
  destruct (network (job_request platform j env) w) as [[e|res] w'] eqn:Hnet;
    cbn [fst snd].
  - eexists _, _. split; [by apply runJob_rejected|].
    cbn [job url baseUrl ms ok]. repeat split; try by destruct platform.
    right. eauto.
  - destruct (res_ok res) eqn:Hok.
    + eexists _, _. split; [by apply runJob_success|].
      cbn [job url baseUrl ms ok]. repeat split; try by destruct platform.
      left. eauto.
    + eexists _, _. split; [by apply runJob_http_failure|].
      cbn [job url baseUrl ms ok]. repeat split; try by destruct platform.
      right. eauto.
Qed.
End Further.

(** ** Jobs, alerts and the end of a tick *)

Lemma existsb_failed_false (results : list JobResult) :
  Forall (λ r, ok r = true) results → existsb (λ r, negb (ok r)) results = false.
Proof. induction 1 as [|r rs Hr _ IH]; [done|]. cbn. by rewrite Hr, IH. Qed.

Lemma filter_failed_all (results : list JobResult) :
  Forall (λ r, ok r = false) results →
  List.filter (λ r, negb (ok r)) results = results.
Proof. induction 1 as [|r rs Hr _ IH]; [done|]. cbn. by rewrite Hr, IH. Qed.

Lemma filter_shouldAlert_none (results : list JobResult) :
  Forall (λ r, status r = Some 503%Z ∨ status r = Some 409%Z) results →
  List.filter (λ r, shouldAlert (Some r)) results = [].
Proof.
  induction 1 as [|r rs Hr _ IH]; [done|]. cbn [List.filter].
  assert (shouldAlert (Some r) = false) as ->; [|done].
  unfold shouldAlert. by destruct Hr as [-> | ->].
Qed.

Lemma job_results_agree {World : Type} (h1 h2 : Host World) env jobs (w : World) :
  (∀ w0, @clock_ms _ h1 w0 = @clock_ms _ h2 w0) →
  (∀ req w0, is_alert req = false → @network _ h1 req w0 = @network _ h2 req w0) →
  @job_results _ h1 env jobs w = @job_results _ h2 env jobs w.
Proof.
  intros Hclock Hnet. revert w. induction jobs as [|pj jobs IH]; intros w; [done|].
  cbn [job_results]. rewrite (Hnet (job_request pj.1 pj.2 env) w) by done.
  by rewrite IH, !Hclock.
Qed.

Section Fetches.
Context {World : Type} {host : Host World}.

(** The network calls of a tick with the gate open: the due jobs, then
    what the alerting stage posts. *)
Lemma scheduled_fetches cron env (w : World) :
  gate_open env = true →
  ∃ w2 e2,
    alerting cron env (job_results env (due_jobs cron) w).1
                      (job_results env (due_jobs cron) w).2
    = {| outcome := inr tt; world_after := w2; events := e2 |}
    ∧ fetched (events (scheduled cron env w))
      = (map (request_of env) (due_jobs cron) ++ fetched e2)%list
    ∧ alert_calls (events (scheduled cron env w)) = fetched e2.
Proof.
  intros Hgate.
  destruct (scheduled_stages cron env w Hgate)
    as (e1 & w2 & e2 & Hal & _ & Hfetch & He1 & _).
  destruct (alerting_posts cron env (job_results env (due_jobs cron) w).1
              (job_results env (due_jobs cron) w).2) as (w2' & e2' & Hal' & Hj & _).
  rewrite Hal in Hal'. injection Hal' as _ <-.
  exists w2, e2. split; [done|]. split; [by rewrite Hfetch, He1|].
  destruct (job_calls_requests env (due_jobs cron) e1 He1) as [_ Ha].
  unfold alert_calls in *. rewrite Hfetch, List.filter_app, Ha. cbn [app].
  by apply alert_calls_only.
Qed.

(** X3. With the gate open and a webhook that has a character other than
    white space, the alerts of a tick are those of the failed results that
    [shouldAlert] lets through, one each and in their order: each is the
    Slack text of its result, posted to the trimmed webhook. *)
Theorem alerts_follow_failures cron env hook (w : World) :
  gate_open env = true →
  SLACK_WEBHOOK_URL env = Some hook →
  all_chars is_whitespace hook = false →
  ∃ results,
    outcome (Promise_all (map (λ pj, runJob pj.1 pj.2 env) (due_jobs cron)) w)
    = inr results
    ∧ Forall2 (λ r req, ∃ ts, req = alert_request cron (trim hook) r ts)
        (List.filter (λ r, shouldAlert (Some r))
                     (List.filter (λ r, negb (ok r)) results))
        (alert_calls (events (scheduled cron env w))).
Proof.
  intros Hgate Hhook Hchars.
  destruct (Promise_all_job_results (due_jobs cron) env w) as (e1 & Hall & _).
  exists (job_results env (due_jobs cron) w).1. rewrite Hall. split; [done|].
  destruct (scheduled_fetches cron env w Hgate) as (w2 & e2 & Hal & _ & ->).
  destruct (alerting_posts cron env (job_results env (due_jobs cron) w).1
              (job_results env (due_jobs cron) w).2) as (w2' & e2' & Hal' & _ & Hposts).
  rewrite Hal in Hal'. injection Hal' as _ <-.
  rewrite Hhook in Hposts. cbn [fmap option_fmap option_map] in Hposts.
  destruct (trim_nonempty hook Hchars) as (c & h & Htrim).
  rewrite Htrim in *. exact Hposts.
Qed.

(** X4. With the gate open, every job is called before any alert is
    posted: the requests of a tick are those of the due jobs, in order,
    followed by the alerts. *)
Theorem jobs_before_alerts cron env (w : World) :
  gate_open env = true →
  fetched (events (scheduled cron env w))
  = (map (λ pj, job_request pj.1 pj.2 env) (due_jobs cron)
     ++ alert_calls (events (scheduled cron env w)))%list.
Proof.
  intros Hgate.
  destruct (scheduled_fetches cron env w Hgate) as (w2 & e2 & _ & Hfetch & ->).
  exact Hfetch.
Qed.

(** X7. When every job request gets an ok response, the tick ends without
    error and posts no alert, for every cron expression whose lookup in the
    worker table is not an inherited member that passes the test for no
    jobs. *)
Theorem all_ok_tick_is_quiet cron env (w : World) :
  (∀ req w0, is_alert req = false →
     ∃ res, (network req w0).1 = Responds res ∧ res_ok res = true) →
  gate_open env = true →
  dispatch_breaks cron = false →
  outcome (scheduled cron env w) = inr tt
  ∧ alert_calls (events (scheduled cron env w)) = [].
Proof.
  intros Hnet Hgate Hbr.
  assert (Forall (λ r, ok r = true) (job_results env (due_jobs cron) w).1) as Hok.
  { apply job_results_Forall. intros p j w0.
    destruct (Hnet (job_request p j env) w0 eq_refl) as (res & -> & Hres).
    unfold result_of_reply. by rewrite Hres. }
  destruct (scheduled_stages cron env w Hgate) as (e1 & w2 & e2 & Hal & Hout & _).
  destruct (scheduled_fetches cron env w Hgate) as (w3 & e3 & Hal3 & _ & ->).
  rewrite Hal in Hal3. injection Hal3 as _ <-.
  split.
  - rewrite Hout, Hbr. unfold failed. by rewrite existsb_failed_false.
  - destruct (alerting_posts cron env (job_results env (due_jobs cron) w).1
                (job_results env (due_jobs cron) w).2)
      as (w2' & e2' & Hal' & _ & Hposts).
    rewrite Hal in Hal'. injection Hal' as _ <-.
    assert (List.filter failed (job_results env (due_jobs cron) w).1 = []) as Hnone.
    { clear -Hok. induction Hok as [|r rs Hr _ IH]; [done|].
      cbn [List.filter]. unfold failed at 1. by rewrite Hr. }
    rewrite Hnone in Hposts. cbn [List.filter] in Hposts.
    destruct (trim <$> SLACK_WEBHOOK_URL env) as [[|c h]|]; try by subst e2.
    by inversion Hposts.
Qed.

(** X9. When every job request is answered 503 or 409, the tick ends with
    the aggregate error, all its jobs counted as failed and none as
    unexpected, and no alert is posted, webhook or not. *)
Theorem suppressed_failures_only cron env (w : World) :
  (∀ req w0, is_alert req = false →
     ∃ res, (network req w0).1 = Responds res
            ∧ (res_status res = 503%Z ∨ res_status res = 409%Z)) →
  gate_open env = true →
  due_jobs cron ≠ [] →
  outcome (scheduled cron env w)
  = inl (Error ("Some jobs failed for cron=" ++ cron ++ ": "
                ++ Number_toString (Z.of_nat (length (due_jobs cron)))
                ++ "/" ++ Number_toString (Z.of_nat (length (due_jobs cron)))
                ++ " (unexpected failures=0)"))
  ∧ alert_calls (events (scheduled cron env w)) = [].
Proof.
  intros Hnet Hgate Hdue.
  set (results := (job_results env (due_jobs cron) w).1).
  assert (Forall (λ r, ok r = false
                       ∧ (status r = Some 503%Z ∨ status r = Some 409%Z)) results)
    as Hres.
  { apply job_results_Forall. intros p j w0.
    destruct (Hnet (job_request p j env) w0 eq_refl) as (res & -> & Hst).
    unfold result_of_reply, res_ok.
    destruct Hst as [-> | ->]; cbn; auto. }
  assert (List.filter (λ r, negb (ok r)) results = results) as Hfailed.
  { apply filter_failed_all. eapply Forall_impl; [exact Hres|]. by intros r [? _]. }
  assert (List.filter (λ r, shouldAlert (Some r)) results = []) as Hnone.
  { apply filter_shouldAlert_none. eapply Forall_impl; [exact Hres|]. by intros r [_ ?]. }
  assert (length results = length (due_jobs cron)) as Hlen
    by apply job_results_length.
  destruct (scheduled_stages cron env w Hgate) as (e1 & w2 & e2 & Hal & Hout & _).
  destruct (scheduled_fetches cron env w Hgate) as (w3 & e3 & Hal3 & _ & ->).
  rewrite Hal in Hal3. injection Hal3 as _ <-.
  fold results in Hal, Hout. split.
  - rewrite Hout.
    assert (dispatch_breaks cron = false) as ->.
    { destruct (dispatch_breaks cron) eqn:Hbr; [|done].
      by apply dispatch_breaks_due in Hbr. }
    assert (existsb failed results = true) as ->.
    { destruct results as [|r rs]; [by destruct (due_jobs cron)|].
      apply Forall_cons in Hres as [[Hr _] _]. cbn. unfold failed. by rewrite Hr. }
    unfold aggregate_message, failed. by rewrite Hfailed, Hnone, Hlen.
  - destruct (alerting_posts cron env results (job_results env (due_jobs cron) w).2)
      as (w2' & e2' & Hal' & _ & Hposts).
    rewrite Hal in Hal'. injection Hal' as _ <-.
    unfold failed in Hposts. rewrite Hfailed, Hnone in Hposts.
    destruct (trim <$> SLACK_WEBHOOK_URL env) as [[|c h]|]; try by subst e2.
    by inversion Hposts.
Qed.

(** X10. No request to the web backend carries the shared secret: the web
    jobs of every cron expression are health checks, sent with GET and
    without headers. *)
Theorem web_backend_gets_no_secret cron env (w : World) :
  gate_open env = true →
  job_calls (events (scheduled cron env w))
  = (map (λ j, job_request worker j env) (default [] (WORKER_CRON_TO_JOBS !! cron))
     ++ map (λ j, job_request web j env) (default [] (WEB_CRON_TO_JOBS !! cron)))%list
  ∧ Forall (λ req, req_headers req = [] ∧ req_method req = "GET"
                   ∧ req_url req = replace_trailing_slashes (WEB_URL env) ++ "/api/healthz")
           (map (λ j, job_request web j env) (default [] (WEB_CRON_TO_JOBS !! cron))).
Proof.
  intros Hgate. split.
  - rewrite scheduled_job_calls by done. unfold due_jobs.
    by rewrite map_app, !map_map.
  - destruct (WEB_CRON_TO_JOBS !! cron) as [[|j js]|] eqn:Hweb;
      [constructor| |constructor].
    pose proof (web_lookup_nonempty _ _ _ Hweb) as ->.
    vm_compute in Hweb. injection Hweb as <- <-.
    repeat constructor.
Qed.
End Fetches.

(** X8. What the Slack webhook answers never changes how a tick ends: two
    hosts with the same clock that answer the job requests alike give the
    same outcome, aggregate error and counts included, and the same job
    calls, whatever they answer to the alerts. *)
Theorem slack_answers_do_not_matter {World : Type} (h1 h2 : Host World)
    cron env (w : World) :
  (∀ w0, @clock_ms _ h1 w0 = @clock_ms _ h2 w0) →
  (∀ req w0, is_alert req = false → @network _ h1 req w0 = @network _ h2 req w0) →
  outcome (scheduled (host := h1) cron env w)
  = outcome (scheduled (host := h2) cron env w)
  ∧ job_calls (events (scheduled (host := h1) cron env w))
    = job_calls (events (scheduled (host := h2) cron env w)).
Proof.
  intros Hclock Hnet.
  destruct (gate_open env) eqn:Hgate.
  - destruct (scheduled_stages (host := h1) cron env w Hgate)
      as (_ & _ & _ & _ & Hout1 & _).
    destruct (scheduled_stages (host := h2) cron env w Hgate)
      as (_ & _ & _ & _ & Hout2 & _).
    rewrite Hout1, Hout2, (job_results_agree h1 h2) by done.
    split; [done|].
    by rewrite !scheduled_job_calls.
  - by rewrite !scheduled_closed.
Qed.

(** X11. The shield-clean worker sends one POST with the shared secret to
    its target on every tick.  The tick ends without error on an ok
    response; on another response it throws an error that names the target,
    the status and the whole text of the response (nothing if the text
    cannot be read); a rejected fetch is passed on as it is. *)
Theorem shield_clean_tick {World : Type} {host : Host World}
    (env : ShieldClean.Env) (w : World) :
  ShieldClean.scheduled env w =
    {| outcome :=
         match (network {| req_url := ShieldClean.TARGET_URL env;
                           req_method := "POST";
                           req_headers := [("Internal-Authorization",
                                            ShieldClean.INTERNAL_API_KEY env)];
                           req_body := None |} w).1 with
         | Rejects e => inl e
         | Responds res =>
             if res_ok res then inr tt
             else inl (Error ("POST " ++ ShieldClean.TARGET_URL env ++ " -> "
                              ++ Number_toString (res_status res) ++ " "
                              ++ text_or_empty (res_text res)))
         end;
       world_after :=
         (network {| req_url := ShieldClean.TARGET_URL env;
                     req_method := "POST";
                     req_headers := [("Internal-Authorization",
                                      ShieldClean.INTERNAL_API_KEY env)];
                     req_body := None |} w).2;
       events :=
         [ev_fetch {| req_url := ShieldClean.TARGET_URL env;
                      req_method := "POST";
                      req_headers := [("Internal-Authorization",
                                       ShieldClean.INTERNAL_API_KEY env)];
                      req_body := None |}] |}.
Proof.
  unfold ShieldClean.scheduled.
  destruct (network _ w) as [[e|res] w'] eqn:Hnet; cbn [fst snd].
  - eapply run_bind_throw. rewrite fetch_run, Hnet. reflexivity.
  - destruct (res_ok res) eqn:Hok.
    + etrans.
      { eapply run_bind; [rewrite fetch_run, Hnet; reflexivity|].
        rewrite Hok. reflexivity. }
      reflexivity.
    + etrans.
      { eapply run_bind; [rewrite fetch_run, Hnet; reflexivity|].
        rewrite Hok. cbn [negb].
        eapply (run_bind _ _ _ (text_or_empty (res_text res)) w' []).
        - unfold Response_text, text_or_empty.
          destruct (res_text res) as [e|t].
          + eapply (run_catch _ _ _ _ _ [] _ _ []); reflexivity.
          + eapply run_try; reflexivity.
        - reflexivity. }
      reflexivity.
Qed.

(** ** Concrete ticks, continued *)

(** One job up, one answered 500, a webhook: one alert, for the job that
    failed. *)
Lemma alerts_follow_failures_witness :
  gate_open env_alerting = true
  ∧ all_chars is_whitespace "https://hooks.slack.com/T0" = false
  ∧ ∃ results,
      outcome (Promise_all
                 (map (λ pj, runJob (host := one_job_up) pj.1 pj.2 env_alerting)
                      (due_jobs "*/15 * * * *")) tt)
      = inr results
      ∧ Forall2 (λ r req, ∃ ts, req = alert_request "*/15 * * * *"
                                        (trim "https://hooks.slack.com/T0") r ts)
          (List.filter (λ r, shouldAlert (Some r))
                       (List.filter (λ r, negb (ok r)) results))
          (alert_calls (events (scheduled (host := one_job_up) "*/15 * * * *"
                                          env_alerting tt))).
Proof.
  split; [reflexivity|]. split; [reflexivity|].
  apply (alerts_follow_failures (host := one_job_up) "*/15 * * * *" env_alerting
           "https://hooks.slack.com/T0" tt); reflexivity.
Defined.

Lemma jobs_before_alerts_witness :
  gate_open env_alerting = true
  ∧ fetched (events (scheduled (host := one_job_up) "*/15 * * * *" env_alerting tt))
    = (map (λ pj, job_request pj.1 pj.2 env_alerting) (due_jobs "*/15 * * * *")
       ++ alert_calls (events (scheduled (host := one_job_up) "*/15 * * * *"
                                         env_alerting tt)))%list.
Proof.
  split; [reflexivity|].
  apply (jobs_before_alerts (host := one_job_up) "*/15 * * * *" env_alerting tt).
  reflexivity.
Defined.

Lemma all_ok_tick_is_quiet_witness :
  gate_open env_alerting = true
  ∧ dispatch_breaks "*/1 * * * *" = false
  ∧ outcome (scheduled (host := always (http 200 "ok")) "*/1 * * * *" env_alerting tt)
    = inr tt
  ∧ alert_calls (events (scheduled (host := always (http 200 "ok")) "*/1 * * * *"
                                   env_alerting tt)) = [].
Proof.
  split; [reflexivity|]. split; [reflexivity|].
  apply (all_ok_tick_is_quiet (host := always (http 200 "ok"))
           "*/1 * * * *" env_alerting tt); [|reflexivity|reflexivity].
  intros req w0 _. exists {| res_status := 200; res_text := inr "ok" |}.
  split; reflexivity.
Defined.

Lemma suppressed_failures_only_witness :
  gate_open env_alerting = true
  ∧ due_jobs "*/1 * * * *" ≠ []
  ∧ outcome (scheduled (host := always (http 409 "busy")) "*/1 * * * *" env_alerting tt)
    = inl (Error "Some jobs failed for cron=*/1 * * * *: 4/4 (unexpected failures=0)").
Proof.
  assert (due_jobs "*/1 * * * *" ≠ []) as Hdue by (vm_compute; discriminate).
  split; [reflexivity|]. split; [exact Hdue|].
  destruct (suppressed_failures_only (host := always (http 409 "busy"))
              "*/1 * * * *" env_alerting tt) as [Hout _];
    [|reflexivity|exact Hdue|].
  - intros req w0 _. exists {| res_status := 409; res_text := inr "busy" |}.
    split; [reflexivity|by right].
  - rewrite Hout. vm_compute. reflexivity.
Defined.

Lemma web_backend_gets_no_secret_witness :
  gate_open env_silent = true
  ∧ Forall (λ req, req_headers req = [] ∧ req_method req = "GET"
                   ∧ req_url req
                     = replace_trailing_slashes (WEB_URL env_silent) ++ "/api/healthz")
           (map (λ j, job_request web j env_silent)
                (default [] (WEB_CRON_TO_JOBS !! "*/1 * * * *"))).
Proof.
  split; [reflexivity|].
  destruct (web_backend_gets_no_secret (host := always (http 200 "ok"))
              "*/1 * * * *" env_silent tt eq_refl) as [_ Hweb].
  exact Hweb.
Defined.

(** Jobs answered 500 with Slack unreachable and with Slack answering: the
    same end. *)
Lemma slack_answers_do_not_matter_witness :
  outcome (scheduled (host := slack_down) "*/15 * * * *" env_alerting tt)
  = outcome (scheduled (host := always (http 500 "down")) "*/15 * * * *" env_alerting tt)
  ∧ outcome (scheduled (host := slack_down) "*/15 * * * *" env_alerting tt)
    = inl (Error "Some jobs failed for cron=*/15 * * * *: 2/2 (unexpected failures=2)").
Proof.
  destruct (slack_answers_do_not_matter slack_down (always (http 500 "down"))
              "*/15 * * * *" env_alerting tt) as [Hout _].
  - reflexivity.
  - intros req w0 Hreq. cbn. by rewrite Hreq.
  - split; [exact Hout|]. rewrite Hout. vm_compute. reflexivity.
Defined.

(** An inherited method without parameters has [length] zero: the tick
    takes it for an expression without jobs and writes the diagnostic. *)
Example inherited_method_without_parameters :
  scheduled (host := always (http 200 "ok")) "toString" env_silent tt
  = {| outcome := inr tt; world_after := tt;
       events := [ev_error ("[2025-01-01T00:00:00.000Z] no jobs mapped for cron="
                            ++ dquote ++ "toString" ++ dquote)] |}.
Proof. vm_compute. reflexivity. Qed.
